(** * nginx-k8s-loadbalancer: host-list synchronisation and TLS configuration

    A shallow embedding of

    - [internal/configuration/settings.go]: the informer callbacks that keep
      [Settings.NginxPlusHosts] in step with the [nginx-hosts] key of a
      ConfigMap, and
    - [internal/authentication/factory.go]: the factory that builds a
      [tls.Config] from the TLS mode and the certificate material,

    followed by the properties of the two.

    Go values are modelled as follows.  A Go [string] is a sequence of bytes,
    here a [string] of 8-bit characters.  [[]byte] is [list byte].  [int] is
    [Z] (no operation below leaves the 64-bit range: every integer is bounded
    by the length of a string).  A slice is a [list]; the nil slice and the
    empty slice both have length 0 and are the empty list.  A [map[string]string]
    is a [gmap string string]; looking a key up in a nil map finds nothing, as
    in the empty map.  A pointer that may be nil is an [option]. *)

From Stdlib Require Import ZArith Lia.
From Stdlib.Strings Require Import Ascii String Byte.
From stdpp Require Import base tactics option list gmap strings.

Local Open Scope Z_scope.

(* ===================================================================== *)
(** * Package [strings] of the Go standard library

    [parseHosts] calls [strings.Split(hosts, ",")].  [Split] is
    [genSplit(s, sep, 0, -1)]; the embedding below follows [genSplit] on the
    path taken for a separator of one byte: [Count] is then the number of
    bytes of [s] equal to the separator and [Index] is [IndexByte]. *)
(* ===================================================================== *)

Module strings.

(** [len(s)] *)
Definition len (s : string) : Z := Z.of_nat (String.length s).

(** [s[:hi]] and [s[lo:]], for indices within the string. *)
Definition slice_to (s : string) (hi : Z) : string :=
  String.substring 0 (Z.to_nat hi) s.

Fixpoint drop_bytes (n : nat) (s : string) : string :=
  match n, s with
  | O, _ => s
  | S _, EmptyString => EmptyString
  | S n', String _ s' => drop_bytes n' s'
  end.

Definition slice_from (s : string) (lo : Z) : string :=
  drop_bytes (Z.to_nat lo) s.

(** [IndexByte(s, c)]: the index of the first byte of [s] equal to [c],
    or [-1]. *)
Fixpoint IndexByte (s : string) (c : ascii) : Z :=
  match s with
  | EmptyString => -1
  | String a s' =>
      if Ascii.eqb a c then 0
      else let m := IndexByte s' c in
           if m <? 0 then -1 else m + 1
  end.

(** [Count(s, sep)] for a separator of one byte. *)
Fixpoint Count (s : string) (c : ascii) : Z :=
  match s with
  | EmptyString => 0
  | String a s' => (if Ascii.eqb a c then 1 else 0) + Count s' c
  end.

(** The end of [genSplit]: [a[i] = s; return a[:i+1]]. *)
Definition genSplit_finish (a : list string) (s : string) (i : Z)
  : list string :=
  take (Z.to_nat (i + 1)) (<[Z.to_nat i := s]> a).

(** The loop of [genSplit]:
<<
    for i < n {
        m := Index(s, sep)
        if m < 0 { break }
        a[i] = s[:m+sepSave]
        s = s[m+len(sep):]
        i++
    }
    a[i] = s
    return a[:i+1]
>>
    [i] grows by one in every round, so [n - i] rounds are enough; [fuel]
    counts them. *)
Fixpoint genSplit_loop (fuel : nat) (a : list string) (s : string)
    (sep : ascii) (sepSave i n : Z) : list string :=
  match fuel with
  | O => genSplit_finish a s i
  | S fuel' =>
      if i <? n then
        let m := IndexByte s sep in
        if m <? 0 then genSplit_finish a s i
        else genSplit_loop fuel'
               (<[Z.to_nat i := slice_to s (m + sepSave)]> a)
               (slice_from s (m + 1)) sep sepSave (i + 1) n
      else genSplit_finish a s i
  end.

(** [genSplit(s, sep, sepSave, n)] with [len(sep) = 1]. *)
Definition genSplit (s : string) (sep : ascii) (sepSave n : Z)
  : list string :=
  if n =? 0 then []
  else
    let n := if n <? 0 then Count s sep + 1 else n in
    let n := if n >? len s + 1 then len s + 1 else n in
    let a := replicate (Z.to_nat n) EmptyString in
    let n := n - 1 in
    genSplit_loop (Z.to_nat n) a s sep sepSave 0 n.

(** [Split(s, sep)] *)
Definition Split (s : string) (sep : ascii) : list string :=
  genSplit s sep 0 (-1).

(** [Join(elems, sep)] for a separator of one byte. *)
Fixpoint Join (elems : list string) (sep : ascii) : string :=
  match elems with
  | [] => EmptyString
  | [e] => e
  | e :: rest => String.append e (String sep (Join rest sep))
  end.

(** [Contains(s, sep)] for one byte, as [IndexByte(s, c) >= 0]. *)
Definition ContainsByte (s : string) (c : ascii) : bool :=
  0 <=? IndexByte s c.

(** What the documentation of [Split] says, written by recursion on the
    string: the substrings of [s] between the separators, in order.  The
    string without a separator is its own single field. *)
Fixpoint fields (sep : ascii) (s : string) : list string :=
  match s with
  | EmptyString => [EmptyString]
  | String a s' =>
      if Ascii.eqb a sep then EmptyString :: fields sep s'
      else match fields sep s' with
           | f :: fs => String a f :: fs
           | [] => [String a EmptyString]
           end
  end.

End strings.

(* ===================================================================== *)
(** * What the handlers see of logrus and of the Kubernetes API           *)
(* ===================================================================== *)

(** A call of [logrus.Debug], [logrus.Info] or [logrus.Errorf] is recorded as
    an entry of the log, in the order of the calls. *)
Module logrus.

Inductive Level := ErrorLevel | InfoLevel | DebugLevel.

Record Entry := { level : Level; message : string }.

End logrus.

(** [corev1.ConfigMap], with the fields the handlers can tell apart: the name
    and the namespace of the object and its [Data]. *)
Module corev1.

Record ConfigMap := {
  Name : string;
  Namespace : string;
  Data : gmap string string;
}.

End corev1.

(** A value of type [interface{}] handed to a callback of the informer: the
    nil interface, a [*corev1.ConfigMap] (which may itself be a nil pointer),
    or a value of another dynamic type, of which only the name is kept. *)
Inductive Object :=
  | NilObject
  | ConfigMapPointer (p : option corev1.ConfigMap)
  | OtherObject (dynamicType : string).

(** The type assertion of [obj] to a pointer to [corev1.ConfigMap], with its
    two results: the pointer and [ok]. *)
Definition assertConfigMap (obj : Object)
  : option corev1.ConfigMap * bool :=
  match obj with
  | ConfigMapPointer p => (p, true)
  | NilObject | OtherObject _ => (None, false)
  end.

(* ===================================================================== *)
(** * Package [configuration]                                             *)
(* ===================================================================== *)

Module configuration.

Definition ConfigMapsNamespace : string := "nkl".
Definition ResyncPeriod : Z := 0.
Definition NklPrefix : string := ConfigMapsNamespace +:+ "-".

(** [time.Duration] counts nanoseconds. *)
Definition Duration := Z.
Definition Second : Duration := 1000000000.

(** Two structs of the package have a field of the same name
    ([RetryCount], [Threads], [WorkQueueSettings], [ResyncPeriod], and [Name]
    beside the ConfigMap's); such a field carries the initial of its struct
    in front. *)
Record WorkQueueSettings := {
  wq_Name : string;
  RateLimiterBase : Duration;
  RateLimiterMax : Duration;
}.

Record HandlerSettings := {
  h_RetryCount : Z;
  h_Threads : Z;
  h_WorkQueueSettings : WorkQueueSettings;
}.

Record WatcherSettings := {
  NginxIngressNamespace : string;
  w_ResyncPeriod : Duration;
}.

Record SynchronizerSettings := {
  MaxMillisecondsJitter : Z;
  MinMillisecondsJitter : Z;
  s_RetryCount : Z;
  s_Threads : Z;
  s_WorkQueueSettings : WorkQueueSettings;
}.

(** The context, the client set, the informer and the registration are
    references to objects of client-go; a reference is kept as an opaque
    number, [None] for nil.  No handler reads or writes them. *)
Definition Reference := option positive.

Record Settings := {
  Context : Reference;
  NginxPlusHosts : list string;
  K8sClient : Reference;
  informer : Reference;
  eventHandlerRegistration : Reference;
  Handler : HandlerSettings;
  Synchronizer : SynchronizerSettings;
  Watcher : WatcherSettings;
}.

Definition NewSettings (ctx k8sClient : Reference) : Settings :=
  {| Context := ctx;
     NginxPlusHosts := [];
     K8sClient := k8sClient;
     informer := None;
     eventHandlerRegistration := None;
     Handler :=
       {| h_RetryCount := 5;
          h_Threads := 1;
          h_WorkQueueSettings :=
            {| RateLimiterBase := Second * 2;
               RateLimiterMax := Second * 60;
               wq_Name := "nkl-handler" |} |};
     Synchronizer :=
       {| MaxMillisecondsJitter := 750;
          MinMillisecondsJitter := 250;
          s_RetryCount := 5;
          s_Threads := 1;
          s_WorkQueueSettings :=
            {| RateLimiterBase := Second * 2;
               RateLimiterMax := Second * 60;
               wq_Name := "nkl-synchronizer" |} |};
     Watcher :=
       {| NginxIngressNamespace := "nginx-ingress";
          w_ResyncPeriod := 0 |} |}.

(** ** The effects of a handler

    A handler is a method on [*Settings] that returns nothing: it writes
    the [Settings] behind its receiver and it logs.  Both are threaded
    through a state; a run-time panic ends the handler with the state as it
    was at that point. *)

Record World := {
  settings : Settings;
  log : list logrus.Entry;
}.

Inductive Outcome (A : Type) :=
  | Returns (a : A) (w : World)
  | Panics (reason : string) (w : World).
Arguments Returns {A} a w.
Arguments Panics {A} reason w.

Definition Exec (A : Type) : Type := World → Outcome A.

Definition ret {A} (a : A) : Exec A := λ w, Returns a w.

Definition bind {A B} (m : Exec A) (k : A → Exec B) : Exec B :=
  λ w, match m w with
       | Returns a w' => k a w'
       | Panics reason w' => Panics reason w'
       end.

Definition panic {A} (reason : string) : Exec A := λ w, Panics reason w.

Declare Scope exec_scope.
Delimit Scope exec_scope with exec.
Bind Scope exec_scope with Exec.
Notation "m1 ;; m2" := (bind m1 (λ _, m2))
  (at level 100, m2 at level 200, right associativity) : exec_scope.
Local Open Scope exec_scope.

(** The world with one more entry at the end of the log. *)
Definition logged (l : logrus.Level) (msg : string) (w : World) : World :=
  {| settings := settings w;
     log := log w ++ [ {| logrus.level := l; logrus.message := msg |} ] |}.

Definition emit (l : logrus.Level) (msg : string) : Exec unit :=
  λ w, Returns tt (logged l msg w).

(** [logrus.Debug], [logrus.Info] and [logrus.Errorf], as the handlers call
    them: with a message that has no verbs. *)
Definition Debug := emit logrus.DebugLevel.
Definition Info := emit logrus.InfoLevel.
Definition Errorf := emit logrus.ErrorLevel.

(** The panic of the Go run time on a field access through a nil pointer. *)
Definition nilDereference : string :=
  "runtime error: invalid memory address or nil pointer dereference".

(** ** The handlers *)

(** The assignment [s.NginxPlusHosts = hosts] on the settings. *)
Definition withHosts (hosts : list string) (s : Settings) : Settings :=
  {| Context := Context s;
     NginxPlusHosts := hosts;
     K8sClient := K8sClient s;
     informer := informer s;
     eventHandlerRegistration := eventHandlerRegistration s;
     Handler := Handler s;
     Synchronizer := Synchronizer s;
     Watcher := Watcher s |}.

Definition updateHosts (hosts : list string) : Exec unit :=
  λ w, Returns tt
         {| settings := withHosts hosts (settings w); log := log w |}.

Definition parseHosts (hosts : string) : list string :=
  strings.Split hosts ",".

Definition handleUpdateEvent (obj : Object) (_ : Object) : Exec unit :=
  Debug "Settings::handleUpdateEvent" ;;
  let '(configMap, ok) := assertConfigMap obj in
  if negb ok then
    Errorf "Settings::handleUpdateEvent: could not convert obj to ConfigMap"
  else
    match configMap with
    | None => panic nilDereference
    | Some configMap =>
        match corev1.Data configMap !! "nginx-hosts" with
        | None =>
            Errorf "Settings::handleUpdateEvent: nginx-hosts key not found in ConfigMap"
        | Some hosts =>
            let newHosts := parseHosts hosts in
            updateHosts newHosts
        end
    end.

Definition handleAddEvent (obj : Object) : Exec unit :=
  Debug "Settings::handleAddEvent" ;;
  handleUpdateEvent obj NilObject.

Definition handleDeleteEvent (_ : Object) : Exec unit :=
  Debug "Settings::handleDeleteEvent" ;;
  updateHosts [].

(** ** The informer

    [initializeEventListeners] registers the three handlers as the
    [AddFunc], [UpdateFunc] and [DeleteFunc] of a
    [cache.ResourceEventHandlerFuncs].  The informer delivers its
    notifications one after the other: an addition with the new object, an
    update with the old and the new object, in this order, and a deletion
    with the last known object. *)

Record ResourceEventHandlerFuncs := {
  AddFunc : Object → Exec unit;
  UpdateFunc : Object → Object → Exec unit;
  DeleteFunc : Object → Exec unit;
}.

Definition handlers : ResourceEventHandlerFuncs :=
  {| AddFunc := handleAddEvent;
     UpdateFunc := handleUpdateEvent;
     DeleteFunc := handleDeleteEvent |}.

Inductive Notification :=
  | addNotification (newObj : Object)
  | updateNotification (oldObj newObj : Object)
  | deleteNotification (oldObj : Object).

Definition deliver (h : ResourceEventHandlerFuncs) (n : Notification)
  : Exec unit :=
  match n with
  | addNotification newObj => AddFunc h newObj
  | updateNotification oldObj newObj => UpdateFunc h oldObj newObj
  | deleteNotification oldObj => DeleteFunc h oldObj
  end.

Fixpoint deliverAll (h : ResourceEventHandlerFuncs) (ns : list Notification)
  : Exec unit :=
  match ns with
  | [] => ret tt
  | n :: ns' => deliver h n ;; deliverAll h ns'
  end.

(** The state in which the informer starts to deliver: the settings as
    [NewSettings] makes them and an empty log. *)
Definition initial (ctx k8sClient : Reference) : World :=
  {| settings := NewSettings ctx k8sClient; log := [] |}.

(** ** Observations on an outcome *)

Definition worldOf {A} (o : Outcome A) : World :=
  match o with Returns _ w | Panics _ w => w end.

Definition panicked {A} (o : Outcome A) : bool :=
  match o with Returns _ _ => false | Panics _ _ => true end.

Definition hostsOf {A} (o : Outcome A) : list string :=
  NginxPlusHosts (settings (worldOf o)).

(** The value of the [nginx-hosts] key that the update handler finds in
    its first argument, when that is a ConfigMap with the key. *)
Definition hostsField (obj : Object) : option string :=
  match assertConfigMap obj with
  | (Some configMap, true) => corev1.Data configMap !! "nginx-hosts"
  | _ => None
  end.

(** Whether the handler of a notification reaches [updateHosts], and so
    replaces the host list: a deletion always does, an addition or an
    update does when the object its handler looks at is a ConfigMap with
    the [nginx-hosts] key. *)
Definition replacesHosts (n : Notification) : bool :=
  match n with
  | addNotification newObj => bool_decide (is_Some (hostsField newObj))
  | updateNotification oldObj _ => bool_decide (is_Some (hostsField oldObj))
  | deleteNotification _ => true
  end.

(** The host list that the handler of a notification hands to
    [updateHosts], if it gets there. *)
Definition installedBy (n : Notification) : option (list string) :=
  match n with
  | addNotification newObj => parseHosts <$> hostsField newObj
  | updateNotification oldObj _ => parseHosts <$> hostsField oldObj
  | deleteNotification _ => Some []
  end.

Definition isDelete (n : Notification) : bool :=
  match n with deleteNotification _ => true | _ => false end.

(** The last notification of a sequence whose handler replaced the host
    list, if there is one. *)
Definition lastReplacement (ns : list Notification) : option Notification :=
  last (filter (λ n, replacesHosts n = true) ns).

(** The last notification of a sequence whose handler returned and left a
    host list different from the one it found, if there is one; [acc] is the
    answer for the notifications delivered before [ns], and [w] the state
    they left.  Nothing is delivered after a panic. *)
Fixpoint lastChange (ns : list Notification) (w : World)
    (acc : option Notification) : option Notification :=
  match ns with
  | [] => acc
  | n :: ns' =>
      match deliver handlers n w with
      | Returns _ w' =>
          lastChange ns' w'
            (if decide (NginxPlusHosts (settings w') = NginxPlusHosts (settings w))
             then acc else Some n)
      | Panics _ _ => acc
      end
  end.

End configuration.

(* ===================================================================== *)
(** * Errors, and the packages of the Go standard library behind the
      factory                                                             *)
(* ===================================================================== *)

Definition bytes := list byte.

#[global] Instance byte_eq_decision : EqDecision byte := Byte.byte_eq_dec.
#[global] Instance bytes_eq_decision : EqDecision bytes := list_eq_dec.

(** A value of the interface [error]: made from a message alone, or, by
    [fmt.Errorf] with the verb [%w], a message around the error it wraps. *)
Inductive error :=
  | errorString (s : string)
  | wrapError (msg : string) (err : error).

(** [err.Error()] *)
Definition Error (e : error) : string :=
  match e with
  | errorString s => s
  | wrapError msg _ => msg
  end.

Module fmt.

(** [fmt.Errorf(msg)] for a format without verbs. *)
Definition Errorf (msg : string) : error := errorString msg.

(** [fmt.Errorf(prefix + "%w", err)] *)
Definition Errorf_w (prefix : string) (err : error) : error :=
  wrapError (prefix +:+ Error err) err.

End fmt.

Module pem.

Record Block := {
  Type_ : string;
  Headers : gmap string string;
  Bytes : bytes;
}.

End pem.

(** The functions of [encoding/pem], [crypto/x509] and [crypto/tls] that the
    factory calls are taken as an interface.

    - [pem.Decode(data)] returns the first PEM block of [data] and the rest of
      the input, or a nil block and the whole input.
    - [x509.ParseCertificate(der)] returns a certificate or an error, never
      both nil.
    - [tls.X509KeyPair(certPEMBlock, keyPEMBlock)] returns a [tls.Certificate]
      (a struct, not a pointer) and an error that may be nil. *)
Class Crypto := {
  x509_Certificate : Type;
  x509_Certificate_eq_dec :: EqDecision x509_Certificate;
  tls_Certificate : Type;
  pem_Decode : bytes → option pem.Block * bytes;
  x509_ParseCertificate : bytes → x509_Certificate + error;
  tls_X509KeyPair : bytes → bytes → tls_Certificate * option error;
}.

Module x509.
Section pool.
Context `{Crypto}.

(** A [*x509.CertPool] by its certificates, in the order they were
    added. *)
Definition CertPool := list x509_Certificate.

Definition NewCertPool : CertPool := [].

(** [AddCert] leaves the pool alone when it holds the certificate
    already. *)
Definition AddCert (cert : x509_Certificate) (s : CertPool) : CertPool :=
  if decide (cert ∈ s) then s else s ++ [cert].
End pool.
End x509.

Module tls.
Section config.
Context `{Crypto}.

(** The fields of [tls.Config] that the factory sets; every other field
    has its zero value on every path.  [RootCAs] is a pointer to a pool,
    nil when the factory installs none. *)
Record Config := {
  InsecureSkipVerify : bool;
  RootCAs : option x509.CertPool;
  Certificates : list tls_Certificate;
}.
End config.
End tls.

(* ===================================================================== *)
(** * Package [certification]                                             *)
(* ===================================================================== *)

Module certification.

(** Modelled from the spec: the type [certification.Certificates] and its
    methods [GetCACertificate] and [GetClientCertificate] are not part of
    the sources at hand.  The specification describes the bundle as holding
    a CA certificate, a client certificate and a client private key, each
    as PEM bytes, possibly empty.  [GetClientCertificate] has two results;
    [buildCertificates] receives them in its parameters [privateKeyPEM] and
    [certificatePEM], in this order. *)
Record Certificates := {
  CACertificate : bytes;
  ClientKey : bytes;
  ClientCertificate : bytes;
}.

Definition GetCACertificate (c : Certificates) : bytes := CACertificate c.

Definition GetClientCertificate (c : Certificates) : bytes * bytes :=
  (ClientKey c, ClientCertificate c).

End certification.

(* ===================================================================== *)
(** * Package [authentication]                                            *)
(* ===================================================================== *)

Module authentication.

(** Modelled from the spec: [NewTlsConfig] reads the fields [TlsMode] and
    [Certificates] of its [*configuration.Settings]; the declaration of
    [Settings] at hand has neither.  The specification gives the mode as
    one of the string literals [no-tls], [ca-tls], [ca-mtls], [ss-tls],
    [ss-mtls], supplied from outside. *)
Record Settings := {
  TlsMode : string;
  Certificates : certification.Certificates;
}.

Section factory.
Context `{Crypto}.

(** A Go function with two results, a pointer and an [error], returns a
    pair; a nil pointer and a nil error are [None]. *)
Definition Result (A : Type) : Type := option A * option error.

Definition buildCaCertificatePool (caCert : bytes)
  : Result x509.CertPool :=
  let '(block, _) := pem_Decode caCert in
  match block with
  | None =>
      (None,
       Some (fmt.Errorf "failed to decode PEM block containing CA certificate"))
  | Some block =>
      match x509_ParseCertificate (pem.Bytes block) with
      | inr err =>
          (None, Some (fmt.Errorf_w "error parsing certificate: " err))
      | inl cert =>
          let caCertPool := x509.NewCertPool in
          let caCertPool := x509.AddCert cert caCertPool in
          (Some caCertPool, None)
      end
  end.

Definition buildCertificates (privateKeyPEM certificatePEM : bytes)
  : tls_Certificate * option error :=
  tls_X509KeyPair certificatePEM privateKeyPEM.

Definition buildBasicTlsConfig (skipVerify : bool) : tls.Config :=
  {| tls.InsecureSkipVerify := skipVerify;
     tls.RootCAs := None;
     tls.Certificates := [] |}.

Definition buildSelfSignedTlsConfig
    (certificates : certification.Certificates) : Result tls.Config :=
  let '(certPool, err) :=
    buildCaCertificatePool (certification.GetCACertificate certificates) in
  match err with
  | Some err => (None, Some err)
  | None =>
      (Some {| tls.InsecureSkipVerify := false;
               tls.RootCAs := certPool;
               tls.Certificates := [] |},
       None)
  end.

Definition buildSelfSignedMtlsConfig
    (certificates : certification.Certificates) : Result tls.Config :=
  let '(certPool, err) :=
    buildCaCertificatePool (certification.GetCACertificate certificates) in
  match err with
  | Some err => (None, Some err)
  | None =>
      let '(privateKeyPEM, certificatePEM) :=
        certification.GetClientCertificate certificates in
      let '(certificate, err) :=
        buildCertificates privateKeyPEM certificatePEM in
      match err with
      | Some err => (None, Some err)
      | None =>
          (Some {| tls.InsecureSkipVerify := false;
                   tls.RootCAs := certPool;
                   tls.Certificates := [certificate] |},
           None)
      end
  end.

Definition buildCaTlsConfig
    (certificates : certification.Certificates) : Result tls.Config :=
  let '(privateKeyPEM, certificatePEM) :=
    certification.GetClientCertificate certificates in
  let '(certificate, err) :=
    buildCertificates privateKeyPEM certificatePEM in
  match err with
  | Some err => (None, Some err)
  | None =>
      (Some {| tls.InsecureSkipVerify := false;
               tls.RootCAs := None;
               tls.Certificates := [certificate] |},
       None)
  end.

Definition NewTlsConfig (settings : Settings) : Result tls.Config :=
  let mode := TlsMode settings in
  if String.eqb mode "ss-tls" then
    buildSelfSignedTlsConfig (Certificates settings)
  else if String.eqb mode "ss-mtls" then
    buildSelfSignedMtlsConfig (Certificates settings)
  else if String.eqb mode "ca-tls" then
    (Some (buildBasicTlsConfig false), None)
  else if String.eqb mode "ca-mtls" then
    buildCaTlsConfig (Certificates settings)
  else
    (Some (buildBasicTlsConfig true), None).

End factory.

(** The five modes the specification names. *)
Definition recognizedModes : list string :=
  ["no-tls"; "ca-tls"; "ca-mtls"; "ss-tls"; "ss-mtls"].

End authentication.

(* ===================================================================== *)
(** * A small instance of the crypto interface

    Enough of PEM and of certificates to run the factory on concrete bytes:
    a PEM input is a dash followed by the body of its only block; a
    certificate is a body that starts with the DER tag of a sequence, [0x30];
    a key fits a certificate when the two bodies are equal. *)
(* ===================================================================== *)

Module sample.

Definition Decode (data : bytes) : option pem.Block * bytes :=
  match data with
  | x2d :: body =>
      (Some {| pem.Type_ := "CERTIFICATE"; pem.Headers := ∅; pem.Bytes := body |},
       [])
  | _ => (None, data)
  end.

Definition ParseCertificate (der : bytes) : bytes + error :=
  match der with
  | x30 :: _ => inl der
  | _ => inr (errorString "x509: malformed certificate")
  end.

Definition X509KeyPair (certPEMBlock keyPEMBlock : bytes)
  : list bytes * option error :=
  match fst (Decode certPEMBlock), fst (Decode keyPEMBlock) with
  | None, _ =>
      ([], Some (errorString "tls: failed to find any PEM data in certificate input"))
  | Some _, None =>
      ([], Some (errorString "tls: failed to find any PEM data in key input"))
  | Some c, Some k =>
      if decide (pem.Bytes c = pem.Bytes k) then ([pem.Bytes c], None)
      else ([], Some (errorString "tls: private key does not match public key"))
  end.

#[export] Instance crypto : Crypto := {|
  x509_Certificate := bytes;
  tls_Certificate := list bytes;
  pem_Decode := Decode;
  x509_ParseCertificate := ParseCertificate;
  tls_X509KeyPair := X509KeyPair;
|}.

(** A CA certificate, and a client certificate with a key that fits and a
    key that does not. *)
Definition caPEM : bytes := [x2d; x30; x01].
Definition clientPEM : bytes := [x2d; x30; x02].
Definition keyPEM : bytes := [x2d; x30; x02].
Definition otherKeyPEM : bytes := [x2d; x30; x03].

Definition bundle (ca key cert : bytes) : certification.Certificates :=
  {| certification.CACertificate := ca;
     certification.ClientKey := key;
     certification.ClientCertificate := cert |}.

(** ConfigMaps of the namespace the informer watches, with and without the
    [nginx-hosts] key. *)
Definition hostsConfigMap (hosts : string) : corev1.ConfigMap :=
  {| corev1.Name := "nkl-config";
     corev1.Namespace := configuration.ConfigMapsNamespace;
     corev1.Data := {[ "nginx-hosts" := hosts ]} |}.

Definition otherConfigMap : corev1.ConfigMap :=
  {| corev1.Name := "nkl-config";
     corev1.Namespace := configuration.ConfigMapsNamespace;
     corev1.Data := {[ "nginx-host" := "10.0.0.1" ]} |}.

Definition world (hosts : list string) : configuration.World :=
  {| configuration.settings :=
       configuration.withHosts hosts (configuration.NewSettings None None);
     configuration.log := [] |}.

(** Hosts are added, an update without the key goes by, the ConfigMap is
    deleted, and an object that is no ConfigMap goes by. *)
Definition notifications : list configuration.Notification :=
  [ configuration.addNotification
      (ConfigMapPointer (Some (hostsConfigMap "10.0.0.1,10.0.0.2")));
    configuration.updateNotification
      (ConfigMapPointer (Some otherConfigMap))
      (ConfigMapPointer (Some (hostsConfigMap "10.0.0.3")));
    configuration.deleteNotification
      (ConfigMapPointer (Some (hostsConfigMap "10.0.0.3")));
    configuration.addNotification NilObject ].

(** A ConfigMap of another name, with the key among others. *)
Definition strayConfigMap : corev1.ConfigMap :=
  {| corev1.Name := "kube-root-ca.crt";
     corev1.Namespace := configuration.ConfigMapsNamespace;
     corev1.Data :=
       {[ "ca.crt" := "-----BEGIN CERTIFICATE-----";
          "nginx-hosts" := "10.0.0.1,10.0.0.2" ]} |}.

(** Only an addition of a ConfigMap without the key. *)
Definition discarded : list configuration.Notification :=
  [ configuration.addNotification (ConfigMapPointer (Some otherConfigMap)) ].

(** Hosts are added, then comes an update whose old object is a nil pointer,
    then an addition that is never delivered. *)
Definition crashing : list configuration.Notification :=
  [ configuration.addNotification
      (ConfigMapPointer (Some (hostsConfigMap "10.0.0.1")));
    configuration.updateNotification
      (ConfigMapPointer None)
      (ConfigMapPointer (Some (hostsConfigMap "10.0.0.2")));
    configuration.addNotification
      (ConfigMapPointer (Some (hostsConfigMap "10.0.0.3"))) ].

End sample.

(* ===================================================================== *)
(** * Package [configuration], continued: [Initialize]

    [Initialize] builds the informer of the ConfigMaps and registers the
    handlers with it.  Of client-go it uses two things, taken as an
    interface:

    - the informer of the ConfigMaps of a namespace that a shared informer
      factory makes for a client set and a resync period (never nil), and
    - [AddEventHandler] of an informer, which returns a registration and an
      error that may be nil. *)
(* ===================================================================== *)

Class ClientGo := {
  ConfigMapsInformer : configuration.Reference → Z → string → positive;
  AddEventHandler :
    positive → configuration.ResourceEventHandlerFuncs →
    configuration.Reference * option error;
}.

(** [errors.Unwrap(err)] *)
Definition Unwrap (e : error) : option error :=
  match e with
  | errorString _ => None
  | wrapError _ err => Some err
  end.


Module initialization.
Import configuration.
Local Open Scope exec_scope.

Section initialize.
Context `{ClientGo}.

(** The assignments [s.informer = informer] and
    [s.eventHandlerRegistration = registration]. *)
Definition withInformer (i : Reference) (s : Settings) : Settings :=
  {| Context := Context s;
     NginxPlusHosts := NginxPlusHosts s;
     K8sClient := K8sClient s;
     informer := i;
     eventHandlerRegistration := eventHandlerRegistration s;
     Handler := Handler s;
     Synchronizer := Synchronizer s;
     Watcher := Watcher s |}.

Definition withRegistration (r : Reference) (s : Settings) : Settings :=
  {| Context := Context s;
     NginxPlusHosts := NginxPlusHosts s;
     K8sClient := K8sClient s;
     informer := informer s;
     eventHandlerRegistration := r;
     Handler := Handler s;
     Synchronizer := Synchronizer s;
     Watcher := Watcher s |}.

Definition modify (f : Settings → Settings) : Exec unit :=
  λ w, Returns tt {| settings := f (settings w); log := log w |}.

Definition buildInformer : Exec (Reference * option error) :=
  λ w,
    let options := ConfigMapsNamespace in
    let informer :=
      ConfigMapsInformer (K8sClient (settings w)) ResyncPeriod options in
    Returns (Some informer, None) w.

Definition initializeEventListeners : Exec (option error) :=
  Debug "Settings::initializeEventListeners" ;;
  λ w,
    match informer (settings w) with
    | None => Panics nilDereference w
    | Some i =>
        let '(registration, err) := AddEventHandler i handlers in
        let w' := {| settings := withRegistration registration (settings w);
                     log := log w |} in
        match err with
        | Some err =>
            Returns
              (Some (fmt.Errorf_w "error occurred registering event handlers: " err))
              w'
        | None => Returns None w'
        end
    end.

Definition Initialize : Exec (option error) :=
  Info "Settings::Initialize" ;;
  bind buildInformer (λ '(informer, err),
    match err with
    | Some err =>
        ret (Some (fmt.Errorf_w "error occurred building ConfigMap informer: " err))
    | None =>
        modify (withInformer informer) ;;
        bind initializeEventListeners (λ err,
          match err with
          | Some err =>
              ret (Some (fmt.Errorf_w
                           "error occurred initializing event listeners: " err))
          | None => ret None
          end)
    end).

(** The world after [Initialize]: two lines in the log, the informer and the
    registration in the settings. *)
Definition initialized (w : World) : World :=
  let i := ConfigMapsInformer (K8sClient (settings w)) 0 "nkl" in
  {| settings :=
       withRegistration (AddEventHandler i handlers).1
         (withInformer (Some i) (settings w));
     log := log w
            ++ [ {| logrus.level := logrus.InfoLevel;
                    logrus.message := "Settings::Initialize" |};
                 {| logrus.level := logrus.DebugLevel;
                    logrus.message := "Settings::initializeEventListeners" |} ] |}.

End initialize.
End initialization.

(* ===================================================================== *)
(** * Observations used by the properties below                           *)
(* ===================================================================== *)

Module observe.
Import configuration.

#[global] Instance Level_eq_decision : EqDecision logrus.Level.
Proof. solve_decision. Defined.

(** The number of entries of a log at error level. *)
Definition errorEntries (l : list logrus.Entry) : nat :=
  length (filter (λ e, logrus.level e = logrus.ErrorLevel) l).

(** The object that the handler of a notification looks at, if it looks at
    one. *)
Definition inspected (n : Notification) : option Object :=
  match n with
  | addNotification newObj => Some newObj
  | updateNotification oldObj _ => Some oldObj
  | deleteNotification _ => None
  end.

(** Whether the handler of a notification reads [Data] through a nil
    pointer. *)
Definition dereferencesNil (n : Notification) : bool :=
  match inspected n with
  | Some (ConfigMapPointer None) => true
  | _ => false
  end.

(** A TLS mode with a [case] of its own in [NewTlsConfig]. *)
Definition handledModes : list string :=
  ["ss-tls"; "ss-mtls"; "ca-tls"; "ca-mtls"].

End observe.

(** A second instance of the crypto interface, with PEM inputs of more than
    one shape: a dash, one byte for the type of the block ([0x43] for a
    certificate, anything else for a private key), the body up to the next
    dash, and after that dash the rest of the input. *)
Module sampleFramed.

Fixpoint untilDash (data : bytes) : option (bytes * bytes) :=
  match data with
  | [] => None
  | x2d :: rest => Some ([], rest)
  | b :: data' =>
      match untilDash data' with
      | Some (body, rest) => Some (b :: body, rest)
      | None => None
      end
  end.

Definition Decode (data : bytes) : option pem.Block * bytes :=
  match data with
  | x2d :: type :: framed =>
      match untilDash framed with
      | Some (body, rest) =>
          (Some {| pem.Type_ := if decide (type = x43) then "CERTIFICATE"
                                else "PRIVATE KEY";
                   pem.Headers := ∅;
                   pem.Bytes := body |},
           rest)
      | None => (None, data)
      end
  | _ => (None, data)
  end.

#[export] Instance crypto : Crypto := {|
  x509_Certificate := bytes;
  tls_Certificate := list bytes;
  pem_Decode := Decode;
  x509_ParseCertificate := sample.ParseCertificate;
  tls_X509KeyPair := sample.X509KeyPair;
|}.

(** A certificate block alone, and a block of the same bytes under the type
    of a private key with more input behind it. *)
Definition certificateBlock : bytes := [x2d; x43; x30; x01; x2d].
Definition keyBlockAndMore : bytes := [x2d; x50; x30; x01; x2d; xff; xfe].

End sampleFramed.

(** A client-go whose informers take every registration, and one whose
    informers refuse. *)
Module sampleClientGo.

Definition refusal : error := errorString "handler registration refused".

#[export] Instance accepting : ClientGo := {|
  ConfigMapsInformer := λ _ _ _, 7%positive;
  AddEventHandler := λ _ _, (Some 11%positive, None);
|}.

#[export] Instance refusing : ClientGo := {|
  ConfigMapsInformer := λ _ _ _, 7%positive;
  AddEventHandler := λ _ _, (None, Some refusal);
|}.

End sampleClientGo.

(* ===================================================================== *)
(** * Properties of [strings.Split]                                       *)
(* ===================================================================== *)

Section SplitProperties.
Import strings.
Variable sep : ascii.

Lemma Count_nonneg s : 0 ≤ Count s sep.
Proof.
  induction s as [|a s IH]; simpl; [lia|]. destruct (Ascii.eqb a sep); lia.
Qed.

Lemma Count_le_len s : Count s sep ≤ len s.
Proof.
  unfold len.
  induction s as [|a s IH]; simpl String.length; simpl Count; [lia|].
  destruct (Ascii.eqb a sep); lia.
Qed.

Lemma IndexByte_lower s : -1 ≤ IndexByte s sep.
Proof.
  induction s as [|a s IH]; simpl; [lia|].
  destruct (Ascii.eqb a sep); [lia|].
  destruct (Z.ltb_spec (IndexByte s sep) 0); lia.
Qed.

Lemma IndexByte_absent s : IndexByte s sep < 0 ↔ Count s sep = 0.
Proof.
  induction s as [|a s IH]; simpl; [lia|].
  pose proof (Count_nonneg s). pose proof (IndexByte_lower s).
  destruct (Ascii.eqb a sep); [lia|].
  destruct (Z.ltb_spec (IndexByte s sep) 0); lia.
Qed.

Lemma fields_not_nil s : fields sep s ≠ [].
Proof.
  destruct s as [|a s]; simpl; [done|].
  destruct (Ascii.eqb a sep); [done|]. by destruct (fields sep s).
Qed.

Lemma fields_absent s : IndexByte s sep < 0 → fields sep s = [s].
Proof.
  induction s as [|a s IH]; simpl; [done|].
  destruct (Ascii.eqb a sep); [lia|].
  destruct (Z.ltb_spec (IndexByte s sep) 0) as [Hlt|Hge]; [|lia].
  intros _. by rewrite (IH Hlt).
Qed.

(** One round of the loop: the field before the first separator, and the
    rest of the string after it. *)
Lemma fields_present s :
  0 ≤ IndexByte s sep →
  fields sep s
    = slice_to s (IndexByte s sep)
        :: fields sep (slice_from s (IndexByte s sep + 1))
  ∧ Count s sep = 1 + Count (slice_from s (IndexByte s sep + 1)) sep.
Proof.
  unfold slice_to, slice_from.
  induction s as [|a s IH]; simpl IndexByte; [lia|].
  simpl fields. simpl Count.
  destruct (Ascii.eqb a sep) eqn:Ha.
  - intros _. simpl. split; [done|lia].
  - destruct (Z.ltb_spec (IndexByte s sep) 0) as [Hlt|Hge]; [lia|].
    intros _. destruct (IH Hge) as [IHf IHc].
    replace (Z.to_nat (IndexByte s sep + 1))
      with (S (Z.to_nat (IndexByte s sep))) by lia.
    replace (Z.to_nat (IndexByte s sep + 1 + 1))
      with (S (Z.to_nat (IndexByte s sep + 1))) by lia.
    simpl. rewrite IHf. split; [done|lia].
Qed.

Lemma genSplit_finish_spec (filled : list string) (k : nat) s :
  genSplit_finish (filled ++ replicate (S k) EmptyString) s
      (Z.of_nat (length filled))
    = filled ++ [s].
Proof.
  unfold genSplit_finish.
  rewrite Nat2Z.id.
  replace (Z.to_nat (Z.of_nat (length filled) + 1))
    with (S (length filled)) by lia.
  rewrite insert_app_r_alt by lia. rewrite Nat.sub_diag. simpl.
  rewrite take_app_ge by (simpl; lia).
  replace (S (length filled) - length filled)%nat with 1%nat by lia.
  done.
Qed.

(** The invariant of the loop: the first [i] cells of [a] hold the fields
    already cut off, [n - i] separators are left in [s], and as many cells
    plus one are still to be filled. *)
Lemma genSplit_loop_spec fuel :
  ∀ (filled : list string) s n,
    n - Z.of_nat (length filled) = Count s sep →
    (Z.to_nat (Count s sep) ≤ fuel)%nat →
    genSplit_loop fuel
        (filled ++ replicate (S (Z.to_nat (Count s sep))) EmptyString)
        s sep 0 (Z.of_nat (length filled)) n
      = filled ++ fields sep s.
Proof.
  induction fuel as [|fuel IH]; intros filled s n Hn Hfuel.
  - pose proof (Count_nonneg s).
    cbn [genSplit_loop]. rewrite genSplit_finish_spec.
    rewrite fields_absent; [done|]. apply IndexByte_absent. lia.
  - pose proof (Count_nonneg s). pose proof (IndexByte_lower s).
    cbn [genSplit_loop]. cbv zeta.
    destruct (Z.ltb_spec (Z.of_nat (length filled)) n) as [Hlt|Hge].
    + destruct (Z.ltb_spec (IndexByte s sep) 0) as [Hneg|Hpos].
      { apply IndexByte_absent in Hneg. lia. }
      destruct (fields_present s Hpos) as [Hf Hc].
      rewrite Z.add_0_r.
      rewrite Nat2Z.id, insert_app_r_alt by lia.
      rewrite Nat.sub_diag.
      replace (Z.to_nat (Count s sep))
        with (S (Z.to_nat (Count (slice_from s (IndexByte s sep + 1)) sep)))
        by (pose proof (Count_nonneg (slice_from s (IndexByte s sep + 1)));
            lia).
      cbn [replicate insert list_insert].
      rewrite (cons_middle (slice_to _ _)), app_assoc.
      replace (Z.of_nat (length filled) + 1)
        with (Z.of_nat (length (filled ++ [slice_to s (IndexByte s sep)])))
        by (rewrite length_app; simpl; lia).
      rewrite Hf.
      replace (filled ++ slice_to s (IndexByte s sep)
                 :: fields sep (slice_from s (IndexByte s sep + 1)))
        with ((filled ++ [slice_to s (IndexByte s sep)])
                ++ fields sep (slice_from s (IndexByte s sep + 1)))
        by (by rewrite <- app_assoc).
      apply (IH (filled ++ [slice_to s (IndexByte s sep)]) _ n).
      * rewrite length_app. simpl. lia.
      * lia.
    + rewrite genSplit_finish_spec.
      rewrite fields_absent; [done|]. apply IndexByte_absent. lia.
Qed.

(** [Split] computes the fields between the separators. *)
Lemma Split_fields s : Split s sep = fields sep s.
Proof.
  unfold Split, genSplit.
  pose proof (Count_nonneg s). pose proof (Count_le_len s).
  change (-1 =? 0) with false. change (-1 <? 0) with true. cbv iota.
  cbv zeta.
  destruct (Z.gtb_spec (Count s sep + 1) (len s + 1)) as [Hgt|_]; [lia|].
  replace (Z.to_nat (Count s sep + 1)) with (S (Z.to_nat (Count s sep)))
    by lia.
  replace (Count s sep + 1 - 1) with (Count s sep) by lia.
  apply (genSplit_loop_spec _ [] s (Count s sep)); simpl; lia.
Qed.

Lemma Join_cons e rest :
  rest ≠ [] → Join (e :: rest) sep = e +:+ String sep (Join rest sep).
Proof. by destruct rest. Qed.

(** Nothing is lost or changed: the fields, joined by the separator, are
    the string. *)
Lemma Join_fields s : Join (fields sep s) sep = s.
Proof.
  induction s as [|a s IH]; [done|].
  simpl fields. destruct (Ascii.eqb_spec a sep) as [->|Hne].
  - rewrite Join_cons by apply fields_not_nil. by rewrite IH.
  - pose proof (fields_not_nil s) as Hnil.
    destruct (fields sep s) as [|f fs]; [done|].
    destruct fs as [|f' fs]; simpl in *; by rewrite <- IH.
Qed.

(** There is one field more than there are separators. *)
Lemma length_fields s : Z.of_nat (length (fields sep s)) = Count s sep + 1.
Proof.
  induction s as [|a s IH]; [done|].
  simpl fields. simpl Count. pose proof (fields_not_nil s) as Hnil.
  destruct (Ascii.eqb a sep).
  - rewrite length_cons. lia.
  - destruct (fields sep s) as [|f fs]; [done|].
    rewrite length_cons in *. lia.
Qed.

(** No field holds a separator. *)
Lemma fields_free s :
  Forall (λ f, ContainsByte f sep = false) (fields sep s).
Proof.
  unfold ContainsByte.
  induction s as [|a s IH]; [by repeat constructor|].
  simpl fields. destruct (Ascii.eqb a sep) eqn:Ha.
  - by constructor.
  - pose proof (fields_not_nil s) as Hnil.
    destruct (fields sep s) as [|f fs]; [done|].
    inversion IH as [|? ? Hf Hfs]; subst. constructor; [|done].
    simpl. rewrite Ha.
    destruct (Z.ltb_spec (IndexByte f sep) 0) as [Hlt|Hge]; [done|].
    apply Z.leb_gt in Hf. lia.
Qed.

(** Conversely, a non-empty list of strings without separator is the
    list of fields of its [Join]: the fields are determined by the
    string. *)
Lemma fields_Join (elems : list string) :
  elems ≠ [] →
  Forall (λ f, ContainsByte f sep = false) elems →
  fields sep (Join elems sep) = elems.
Proof.
  unfold ContainsByte.
  induction elems as [|e rest IH]; [done|]. intros _ Hall.
  inversion Hall as [|? ? He Hrest]; subst. apply Z.leb_gt in He.
  destruct rest as [|e' rest].
  - simpl. by apply fields_absent.
  - rewrite Join_cons by done.
    specialize (IH ltac:(done) Hrest). revert IH.
    generalize (Join (e' :: rest) sep) as tail. intros tail IH.
    clear Hall Hrest. induction e as [|a e IHe]; simpl.
    + rewrite Ascii.eqb_refl. by rewrite IH.
    + simpl in He. destruct (Ascii.eqb a sep); [lia|].
      destruct (Z.ltb_spec (IndexByte e sep) 0) as [Hlt|Hge]; [|lia].
      by rewrite (IHe Hlt).
Qed.

End SplitProperties.

Example Split_keeps_blanks_and_repeats :
  strings.Split " a , a,,b!" "," = [" a "; " a"; ""; "b!"].
Proof. reflexivity. Qed.

Example Split_empty : strings.Split "" "," = [""].
Proof. reflexivity. Qed.

(* ===================================================================== *)
(** * Properties of the handlers                                          *)
(* ===================================================================== *)

Section HandlerProperties.
Import configuration.

(** The four ways through [handleUpdateEvent]. *)
Lemma handleUpdateEvent_cases (obj old : Object) (w : World) :
  handleUpdateEvent obj old w =
    let w1 := logged logrus.DebugLevel "Settings::handleUpdateEvent" w in
    match obj with
    | ConfigMapPointer (Some configMap) =>
        match corev1.Data configMap !! "nginx-hosts" with
        | Some hosts =>
            Returns tt {| settings := withHosts (parseHosts hosts) (settings w1);
                          log := log w1 |}
        | None =>
            Returns tt
              (logged logrus.ErrorLevel
                 "Settings::handleUpdateEvent: nginx-hosts key not found in ConfigMap"
                 w1)
        end
    | ConfigMapPointer None => Panics nilDereference w1
    | NilObject | OtherObject _ =>
        Returns tt
          (logged logrus.ErrorLevel
             "Settings::handleUpdateEvent: could not convert obj to ConfigMap"
             w1)
    end.
Proof.
  destruct obj as [|[configMap|]|dynamicType]; try reflexivity.
  unfold handleUpdateEvent, bind, Debug, emit. cbn [assertConfigMap negb].
  by destruct (corev1.Data configMap !! "nginx-hosts").
Qed.

(** The handlers read the log nowhere: what they do to the settings does not
    depend on it. *)
Lemma handleUpdateEvent_log_irrelevant (obj old : Object) (w1 w2 : World) :
  settings w1 = settings w2 →
  settings (worldOf (handleUpdateEvent obj old w1))
    = settings (worldOf (handleUpdateEvent obj old w2))
  ∧ panicked (handleUpdateEvent obj old w1)
    = panicked (handleUpdateEvent obj old w2).
Proof.
  intros Heq. rewrite !handleUpdateEvent_cases. cbv zeta.
  destruct obj as [|[configMap|]|dynamicType]; simpl; rewrite ?Heq; try done.
  destruct (corev1.Data configMap !! "nginx-hosts"); simpl; by rewrite ?Heq.
Qed.

Lemma parseHosts_not_nil (hosts : string) : parseHosts hosts ≠ [].
Proof. unfold parseHosts. rewrite Split_fields. apply fields_not_nil. Qed.

(** C1: [handleUpdateEvent] on a ConfigMap whose data binds [nginx-hosts] to
    [s] returns with the host list replaced by [strings.Split s ","] and the
    rest of the settings as it was.  The
    split keeps every byte between the commas: the hosts joined by commas are
    [s] again, there is one host more than [s] has commas (nothing trimmed,
    merged or dropped, whatever the hosts look like), no host holds a comma,
    and for the empty [s] the list is the one empty host, not the empty
    list. *)
Theorem handleUpdateEvent_replaces_hosts_by_split
    (configMap : corev1.ConfigMap) (s : string) (old : Object) (w : World) :
  corev1.Data configMap !! "nginx-hosts" = Some s →
  ∃ w',
    handleUpdateEvent (ConfigMapPointer (Some configMap)) old w = Returns tt w'
    ∧ settings w' = withHosts (strings.Split s ",") (settings w)
    ∧ NginxPlusHosts (settings w') = strings.Split s ","
    ∧ NginxPlusHosts (settings w') = strings.fields "," s
    ∧ strings.Join (NginxPlusHosts (settings w')) "," = s
    ∧ Z.of_nat (length (NginxPlusHosts (settings w'))) = strings.Count s "," + 1
    ∧ Forall (λ host, strings.ContainsByte host "," = false)
             (NginxPlusHosts (settings w'))
    ∧ (s = "" → NginxPlusHosts (settings w') = [""]).
Proof.
  intros Hkey. rewrite handleUpdateEvent_cases. cbv zeta. rewrite Hkey.
  eexists. split; [reflexivity|]. split; [reflexivity|].
  cbn [settings withHosts NginxPlusHosts].
  unfold parseHosts. rewrite Split_fields.
  repeat split.
  - apply Join_fields.
  - apply length_fields.
  - apply fields_free.
  - by intros ->.
Qed.

Lemma handleUpdateEvent_replaces_hosts_by_split_witness :
  corev1.Data (sample.hostsConfigMap "") !! "nginx-hosts" = Some ""
  ∧ ∃ w',
      handleUpdateEvent (ConfigMapPointer (Some (sample.hostsConfigMap "")))
          NilObject (sample.world ["10.0.0.1"])
        = Returns tt w'
      ∧ settings w'
        = withHosts (strings.Split "" ",") (settings (sample.world ["10.0.0.1"]))
      ∧ NginxPlusHosts (settings w') = strings.Split "" ","
      ∧ NginxPlusHosts (settings w') = strings.fields "," ""
      ∧ strings.Join (NginxPlusHosts (settings w')) "," = ""
      ∧ Z.of_nat (length (NginxPlusHosts (settings w')))
          = strings.Count "" "," + 1
      ∧ Forall (λ host, strings.ContainsByte host "," = false)
               (NginxPlusHosts (settings w'))
      ∧ ("" = "" → NginxPlusHosts (settings w') = [""]).
Proof.
  split; [vm_compute; reflexivity|].
  apply (handleUpdateEvent_replaces_hosts_by_split
           (sample.hostsConfigMap "") "" NilObject (sample.world ["10.0.0.1"])).
  vm_compute; reflexivity.
Defined.

(** A nil pointer to a ConfigMap passes the type assertion; the handler then
    panics on the access to [Data], with the settings as they were. *)
Lemma handleUpdateEvent_nil_pointer_panics (old : Object) (w : World) :
  handleUpdateEvent (ConfigMapPointer None) old w
    = Panics nilDereference
        (logged logrus.DebugLevel "Settings::handleUpdateEvent" w).
Proof. reflexivity. Qed.

(** C5: when the type assertion of the payload fails, or the payload is a
    ConfigMap whose data has no [nginx-hosts] key, [handleUpdateEvent]
    returns (it does not panic, and it has no error result to give): the
    settings, and with them the host list, are what they were, and the log
    has gained, after the handler's debug line, one entry at error level. *)
Theorem handleUpdateEvent_discards_unusable_payload
    (obj old : Object) (w : World) :
  (assertConfigMap obj).2 = false
  ∨ (∃ configMap, obj = ConfigMapPointer (Some configMap)
                  ∧ corev1.Data configMap !! "nginx-hosts" = None) →
  ∃ diagnostic,
    handleUpdateEvent obj old w =
      Returns tt
        (logged logrus.ErrorLevel diagnostic
           (logged logrus.DebugLevel "Settings::handleUpdateEvent" w))
    ∧ settings (worldOf (handleUpdateEvent obj old w)) = settings w
    ∧ hostsOf (handleUpdateEvent obj old w) = NginxPlusHosts (settings w).
Proof.
  intros [Hok|(configMap & -> & Hkey)]; unfold hostsOf;
    rewrite handleUpdateEvent_cases; cbv zeta.
  - destruct obj as [|p|dynamicType]; [|done|]; by eexists.
  - rewrite Hkey. by eexists.
Qed.

Lemma handleUpdateEvent_discards_unusable_payload_witness :
  ((assertConfigMap (ConfigMapPointer (Some sample.otherConfigMap))).2 = false
   ∨ (∃ configMap,
        ConfigMapPointer (Some sample.otherConfigMap)
          = ConfigMapPointer (Some configMap)
        ∧ corev1.Data configMap !! "nginx-hosts" = None))
  ∧ ∃ diagnostic,
      handleUpdateEvent (ConfigMapPointer (Some sample.otherConfigMap))
          NilObject (sample.world ["10.0.0.1"; "10.0.0.2"])
        = Returns tt
            (logged logrus.ErrorLevel diagnostic
               (logged logrus.DebugLevel "Settings::handleUpdateEvent"
                  (sample.world ["10.0.0.1"; "10.0.0.2"])))
      ∧ settings
          (worldOf
             (handleUpdateEvent (ConfigMapPointer (Some sample.otherConfigMap))
                NilObject (sample.world ["10.0.0.1"; "10.0.0.2"])))
        = settings (sample.world ["10.0.0.1"; "10.0.0.2"])
      ∧ hostsOf
          (handleUpdateEvent (ConfigMapPointer (Some sample.otherConfigMap))
             NilObject (sample.world ["10.0.0.1"; "10.0.0.2"]))
        = NginxPlusHosts (settings (sample.world ["10.0.0.1"; "10.0.0.2"])).
Proof.
  assert (Hkey : corev1.Data sample.otherConfigMap !! "nginx-hosts" = None)
    by (vm_compute; reflexivity).
  split.
  - right. exists sample.otherConfigMap. split; [reflexivity | exact Hkey].
  - apply (handleUpdateEvent_discards_unusable_payload
             (ConfigMapPointer (Some sample.otherConfigMap)) NilObject
             (sample.world ["10.0.0.1"; "10.0.0.2"])).
    right. exists sample.otherConfigMap. split; [reflexivity | exact Hkey].
Defined.

(** C6: whatever the payload and whatever the host list was,
    [handleDeleteEvent] returns with the empty host list; the other settings
    are untouched. *)
Theorem handleDeleteEvent_empties_hosts (obj : Object) (w : World) :
  ∃ w',
    handleDeleteEvent obj w = Returns tt w'
    ∧ NginxPlusHosts (settings w') = []
    ∧ settings w' = withHosts [] (settings w).
Proof. by eexists. Qed.

(** C7: [handleAddEvent obj] leaves the settings that
    [handleUpdateEvent obj nil] leaves, for every payload and every state,
    and panics exactly when the other does.  It is the update handler run
    after one more debug line in the log; and the update handler does not
    look at its second argument. *)
Theorem handleAddEvent_is_update_with_nil (obj : Object) (w : World) :
  settings (worldOf (handleAddEvent obj w))
    = settings (worldOf (handleUpdateEvent obj NilObject w))
  ∧ panicked (handleAddEvent obj w)
    = panicked (handleUpdateEvent obj NilObject w)
  ∧ handleAddEvent obj w
    = handleUpdateEvent obj NilObject
        (logged logrus.DebugLevel "Settings::handleAddEvent" w)
  ∧ ∀ old, handleUpdateEvent obj old w = handleUpdateEvent obj NilObject w.
Proof.
  assert (Hrun : handleAddEvent obj w
                 = handleUpdateEvent obj NilObject
                     (logged logrus.DebugLevel "Settings::handleAddEvent" w))
    by reflexivity.
  rewrite Hrun.
  destruct (handleUpdateEvent_log_irrelevant obj NilObject
              (logged logrus.DebugLevel "Settings::handleAddEvent" w) w
              eq_refl) as [Hs Hp].
  rewrite Hs, Hp. by repeat split.
Qed.

End HandlerProperties.

(* ===================================================================== *)
(** * The host list along a sequence of notifications                     *)
(* ===================================================================== *)

Section DeliveryProperties.
Import configuration.

(** A handler that returned: its final world is the one of the equation. *)
Ltac returned := intros [= <-]; done.

Lemma replacesHosts_installedBy (n : Notification) :
  replacesHosts n = true ↔ is_Some (installedBy n).
Proof.
  destruct n as [obj|obj newObj|obj]; simpl;
    rewrite ?bool_decide_eq_true, ?fmap_is_Some; naive_solver.
Qed.

(** One notification: when its handler returns, the host list is the one the
    handler installed, or the list as it was. *)
Lemma deliver_hosts (n : Notification) (w w' : World) :
  deliver handlers n w = Returns tt w' →
  NginxPlusHosts (settings w')
    = default (NginxPlusHosts (settings w)) (installedBy n).
Proof.
  destruct n as [obj|obj newObj|obj]; simpl.
  - unfold handleAddEvent, bind, Debug, emit. rewrite handleUpdateEvent_cases.
    cbv zeta. unfold hostsField.
    destruct obj as [|[configMap|]|dynamicType]; simpl;
      [returned| |done|returned].
    destruct (corev1.Data configMap !! "nginx-hosts"); returned.
  - rewrite handleUpdateEvent_cases. cbv zeta. unfold hostsField.
    destruct obj as [|[configMap|]|dynamicType]; simpl;
      [returned| |done|returned].
    destruct (corev1.Data configMap !! "nginx-hosts"); returned.
  - returned.
Qed.

(** The informer calls [UpdateFunc] with the old object first: the handler
    registered for updates looks at that one. *)
Lemma deliver_update_reads_first_object (oldObj newObj : Object) (w : World) :
  deliver handlers (updateNotification oldObj newObj) w
    = handleUpdateEvent oldObj newObj w
  ∧ installedBy (updateNotification oldObj newObj)
    = parseHosts <$> hostsField oldObj.
Proof. done. Qed.

Lemma lastReplacement_cons (n : Notification) (ns : list Notification) :
  lastReplacement (n :: ns)
    = match lastReplacement ns with
      | Some m => Some m
      | None => if replacesHosts n then Some n else None
      end.
Proof.
  unfold lastReplacement. rewrite filter_cons.
  destruct (decide (replacesHosts n = true)) as [Hn|Hn].
  - rewrite last_cons, Hn. done.
  - destruct (replacesHosts n); [done|]. by destruct (last _).
Qed.

Lemma lastReplacement_replaces (ns : list Notification) (n : Notification) :
  lastReplacement ns = Some n → replacesHosts n = true.
Proof.
  unfold lastReplacement. intros Hlast.
  apply last_Some_elem_of in Hlast. by apply list_elem_of_filter in Hlast as [? _].
Qed.

(** A sequence of notifications: when all handlers have returned, the host
    list is the one installed by the last notification that replaced it, or,
    if none did, the list as it was at the start. *)
Lemma deliverAll_hosts (ns : list Notification) :
  ∀ w w',
    deliverAll handlers ns w = Returns tt w' →
    NginxPlusHosts (settings w')
      = match lastReplacement ns with
        | Some n => default [] (installedBy n)
        | None => NginxPlusHosts (settings w)
        end.
Proof.
  induction ns as [|n ns IH]; intros w w' Hrun.
  - by injection Hrun as <-.
  - cbn [deliverAll] in Hrun. unfold bind in Hrun.
    destruct (deliver handlers n w) as [[] w1|reason w1] eqn:Hn; [|done].
    rewrite lastReplacement_cons, (IH _ _ Hrun), (deliver_hosts _ _ _ Hn).
    destruct (lastReplacement ns) as [m|]; [done|].
    destruct (replacesHosts n) eqn:Hrep.
    + apply replacesHosts_installedBy in Hrep as [hosts ->]. done.
    + destruct (installedBy n) eqn:Hinst; [|done].
      assert (replacesHosts n = true) by (apply replacesHosts_installedBy; eauto).
      congruence.
Qed.

(** The same for the last notification that changed the list, from any
    state onwards. *)
Lemma lastChange_empty (ns : list Notification) :
  ∀ w w' acc,
    (NginxPlusHosts (settings w) = [] →
     acc = None ∨ ∃ obj, acc = Some (deleteNotification obj)) →
    deliverAll handlers ns w = Returns tt w' →
    NginxPlusHosts (settings w') = [] →
    lastChange ns w acc = None
    ∨ ∃ obj, lastChange ns w acc = Some (deleteNotification obj).
Proof.
  induction ns as [|n ns IH]; intros w w' acc Hacc Hrun Hempty.
  - injection Hrun as <-. by apply Hacc.
  - cbn [deliverAll] in Hrun. unfold bind in Hrun. cbn [lastChange].
    destruct (deliver handlers n w) as [[] w1|reason w1] eqn:Hn; [|done].
    apply (IH w1 w'); [|done..].
    intros Hempty1. case_decide as Hsame.
    + apply Hacc. congruence.
    + right. pose proof (deliver_hosts _ _ _ Hn) as Hhosts.
      destruct n as [obj|obj newObj|obj]; [| |by eexists];
        simpl in Hhosts;
        (destruct (hostsField obj) as [s|]; simpl in Hhosts; [|congruence]);
        rewrite Hempty1 in Hhosts; by destruct (parseHosts_not_nil s).
Qed.

(** C10, as the code has it.
    - [strings.Split] on a comma never yields the empty list.
    - An add or an update whose handler replaces the host list leaves a
      non-empty list: only a deletion installs the empty list.
    - A notification whose handler turns a non-empty host list into the
      empty one is a deletion.
    - In every state reached from the settings of [NewSettings] by handlers
      that returned, the host list is empty only if the last notification
      that replaced the list was a deletion, or if no notification has
      replaced it yet: the list starts out empty.
    - The same holds of the last notification that changed the list. *)
Theorem hosts_empty_only_after_delete_or_before_first_replacement
    (ctx k8sClient : Reference) :
  (∀ hosts : string, strings.Split hosts "," ≠ [])
  ∧ (∀ n w w',
       isDelete n = false →
       replacesHosts n = true →
       deliver handlers n w = Returns tt w' →
       NginxPlusHosts (settings w') ≠ [])
  ∧ (∀ n w w',
       deliver handlers n w = Returns tt w' →
       NginxPlusHosts (settings w) ≠ [] →
       NginxPlusHosts (settings w') = [] →
       isDelete n = true)
  ∧ (∀ ns w,
       deliverAll handlers ns (initial ctx k8sClient) = Returns tt w →
       NginxPlusHosts (settings w) = [] →
       lastReplacement ns = None
       ∨ ∃ obj, lastReplacement ns = Some (deleteNotification obj))
  ∧ (∀ ns w,
       deliverAll handlers ns (initial ctx k8sClient) = Returns tt w →
       NginxPlusHosts (settings w) = [] →
       lastChange ns (initial ctx k8sClient) None = None
       ∨ ∃ obj,
           lastChange ns (initial ctx k8sClient) None
             = Some (deleteNotification obj)).
Proof.
  assert (Hinst : ∀ n hosts,
            isDelete n = false → installedBy n = Some hosts → hosts ≠ []).
  { intros [obj|obj newObj|obj] hosts Hdel; [| |done]; simpl;
      intros (s & _ & ->)%fmap_Some; apply parseHosts_not_nil. }
  split; [|split; [|split; [|split]]].
  - apply parseHosts_not_nil.
  - intros n w w' Hdel Hrep Hrun.
    rewrite (deliver_hosts _ _ _ Hrun).
    apply replacesHosts_installedBy in Hrep as [hosts Hhosts].
    rewrite Hhosts. simpl. by eapply Hinst.
  - intros n w w' Hrun Hbefore Hafter.
    rewrite (deliver_hosts _ _ _ Hrun) in Hafter.
    destruct (isDelete n) eqn:Hdel; [done|].
    destruct (installedBy n) as [hosts|] eqn:Hhosts; simpl in Hafter.
    + by destruct (Hinst _ _ Hdel Hhosts).
    + done.
  - intros ns w Hrun Hempty.
    rewrite (deliverAll_hosts _ _ _ Hrun) in Hempty.
    destruct (lastReplacement ns) as [n|] eqn:Hlast; [|by left].
    right. destruct n as [obj|obj newObj|obj]; [| |by eexists].
    + apply lastReplacement_replaces, replacesHosts_installedBy in Hlast
        as [hosts Hhosts].
      rewrite Hhosts in Hempty. simpl in Hempty.
      by destruct (Hinst (addNotification obj) hosts eq_refl Hhosts).
    + apply lastReplacement_replaces, replacesHosts_installedBy in Hlast
        as [hosts Hhosts].
      rewrite Hhosts in Hempty. simpl in Hempty.
      by destruct (Hinst (updateNotification obj newObj) hosts eq_refl Hhosts).
  - intros ns w Hrun Hempty.
    apply (lastChange_empty ns _ w); [by left|done..].
Qed.

Lemma hosts_empty_only_after_delete_or_before_first_replacement_witness :
  deliverAll handlers sample.notifications (initial None None)
    = Returns tt
        (worldOf (deliverAll handlers sample.notifications (initial None None)))
  ∧ NginxPlusHosts
      (settings
         (worldOf (deliverAll handlers sample.notifications (initial None None))))
    = []
  ∧ (lastReplacement sample.notifications = None
     ∨ ∃ obj, lastReplacement sample.notifications = Some (deleteNotification obj)).
Proof.
  assert (Hrun :
    deliverAll handlers sample.notifications (initial None None)
      = Returns tt
          (worldOf (deliverAll handlers sample.notifications (initial None None))))
    by (vm_compute; reflexivity).
  assert (Hempty :
    NginxPlusHosts
      (settings
         (worldOf (deliverAll handlers sample.notifications (initial None None))))
      = [])
    by (vm_compute; reflexivity).
  split; [exact Hrun|]. split; [exact Hempty|].
  exact (proj1 (proj2 (proj2 (proj2
           (hosts_empty_only_after_delete_or_before_first_replacement None None))))
           _ _ Hrun Hempty).
Defined.

(** C10 as it was stated fails in the states reached before any replacement
    of the host list: [NewSettings] leaves [NginxPlusHosts] nil, so with no
    notification at all, and after an addition that is discarded for want of
    the key, the host list is empty although no deletion was delivered. *)
Lemma hosts_empty_without_any_delete :
  (deliverAll handlers [] (initial None None) = Returns tt (initial None None)
   ∧ NginxPlusHosts (settings (initial None None)) = []
   ∧ lastReplacement [] = None
   ∧ lastChange [] (initial None None) None = None)
  ∧ (panicked (deliverAll handlers sample.discarded (initial None None)) = false
     ∧ hostsOf (deliverAll handlers sample.discarded (initial None None)) = []
     ∧ Forall (λ n, isDelete n = false) sample.discarded
     ∧ lastReplacement sample.discarded = None
     ∧ lastChange sample.discarded (initial None None) None = None).
Proof.
  split.
  - by repeat split.
  - repeat split; try (vm_compute; reflexivity).
    repeat constructor.
Qed.

End DeliveryProperties.

(* ===================================================================== *)
(** * Properties of the factory                                           *)
(* ===================================================================== *)

Section FactoryProperties.
Context `{Crypto}.
Import authentication.

Lemma mode_is_not (mode literal : string) :
  mode ≠ literal → String.eqb mode literal = false.
Proof. apply String.eqb_neq. Qed.

(** Both self-signed modes give up on the error of the CA pool, before
    anything else is looked at. *)
Lemma buildSelfSignedTlsConfig_pool_error certificates pool err :
  buildCaCertificatePool (certification.GetCACertificate certificates)
    = (pool, Some err) →
  buildSelfSignedTlsConfig certificates = (None, Some err).
Proof. unfold buildSelfSignedTlsConfig. by intros ->. Qed.

Lemma buildSelfSignedMtlsConfig_pool_error certificates pool err :
  buildCaCertificatePool (certification.GetCACertificate certificates)
    = (pool, Some err) →
  buildSelfSignedMtlsConfig certificates = (None, Some err).
Proof. unfold buildSelfSignedMtlsConfig. by intros ->. Qed.

(** C2: in mode [no-tls], whatever the bundle, [NewTlsConfig] returns no
    error and a configuration that skips verification, installs no root pool
    and carries no client certificate; and a mode that is none of the five
    recognized literals gets this very result. *)
Theorem NewTlsConfig_no_tls_and_unrecognized
    (certificates : certification.Certificates) :
  NewTlsConfig {| TlsMode := "no-tls"; Certificates := certificates |}
    = (Some {| tls.InsecureSkipVerify := true;
               tls.RootCAs := None;
               tls.Certificates := [] |},
       None)
  ∧ ∀ mode : string,
      mode ∉ recognizedModes →
      NewTlsConfig {| TlsMode := mode; Certificates := certificates |}
        = NewTlsConfig {| TlsMode := "no-tls"; Certificates := certificates |}.
Proof.
  split; [reflexivity|].
  intros mode Hmode. unfold recognizedModes in Hmode.
  rewrite !not_elem_of_cons in Hmode.
  destruct Hmode as (_ & Hca_tls & Hca_mtls & Hss_tls & Hss_mtls & _).
  unfold NewTlsConfig. cbn [TlsMode Certificates].
  rewrite (mode_is_not _ _ Hss_tls), (mode_is_not _ _ Hss_mtls),
    (mode_is_not _ _ Hca_tls), (mode_is_not _ _ Hca_mtls).
  reflexivity.
Qed.

(** C3: [buildCaCertificatePool] fails with the error of the missing PEM
    block when [pem.Decode] finds no block; fails with the error of
    [x509.ParseCertificate], wrapped, when the bytes of the block are no
    certificate; and otherwise returns, without error, the pool of that one
    certificate.  [NewTlsConfig] in mode [ss-tls] returns the error of the
    pool together with a nil configuration. *)
Theorem buildCaCertificatePool_outcomes (caCert : bytes) :
  ((pem_Decode caCert).1 = None →
     buildCaCertificatePool caCert
       = (None,
          Some (errorString
                  "failed to decode PEM block containing CA certificate")))
  ∧ (∀ block err,
       (pem_Decode caCert).1 = Some block →
       x509_ParseCertificate (pem.Bytes block) = inr err →
       buildCaCertificatePool caCert
         = (None,
            Some (wrapError ("error parsing certificate: " +:+ Error err) err)))
  ∧ (∀ block cert,
       (pem_Decode caCert).1 = Some block →
       x509_ParseCertificate (pem.Bytes block) = inl cert →
       buildCaCertificatePool caCert = (Some [cert], None))
  ∧ (∀ certificates err,
       certification.GetCACertificate certificates = caCert →
       buildCaCertificatePool caCert = (None, Some err) →
       NewTlsConfig {| TlsMode := "ss-tls"; Certificates := certificates |}
         = (None, Some err)).
Proof.
  unfold buildCaCertificatePool.
  destruct (pem_Decode caCert) as [block rest] eqn:Hdecode. cbn [fst].
  split; [|split; [|split]].
  - by intros ->.
  - intros b err -> Hparse. by rewrite Hparse.
  - intros b cert -> Hparse. rewrite Hparse.
    unfold x509.AddCert, x509.NewCertPool.
    rewrite decide_False by apply not_elem_of_nil. done.
  - intros certificates err <- Hpool.
    unfold NewTlsConfig. cbn [TlsMode Certificates String.eqb Ascii.eqb Bool.eqb].
    apply (buildSelfSignedTlsConfig_pool_error _ None).
    unfold buildCaCertificatePool. by rewrite Hdecode.
Qed.

(** C4, as the code has it: when the key-pair parser rejects the client
    certificate and key, [NewTlsConfig] in mode [ss-mtls] returns a nil
    configuration.  The error is the parser's, unchanged, if the CA
    certificate gave a pool; it is the error of the pool if the CA
    certificate gave none, because the pool is built first. *)
Theorem NewTlsConfig_ss_mtls_key_pair_rejected
    (certificates : certification.Certificates)
    (certificate : tls_Certificate) (err : error) :
  tls_X509KeyPair (certification.ClientCertificate certificates)
                  (certification.ClientKey certificates)
    = (certificate, Some err) →
  (NewTlsConfig {| TlsMode := "ss-mtls"; Certificates := certificates |}).1
    = None
  ∧ (∀ pool,
       buildCaCertificatePool (certification.GetCACertificate certificates)
         = (pool, None) →
       NewTlsConfig {| TlsMode := "ss-mtls"; Certificates := certificates |}
         = (None, Some err))
  ∧ (∀ pool poolErr,
       buildCaCertificatePool (certification.GetCACertificate certificates)
         = (pool, Some poolErr) →
       NewTlsConfig {| TlsMode := "ss-mtls"; Certificates := certificates |}
         = (None, Some poolErr)).
Proof.
  intros Hpair.
  unfold NewTlsConfig. cbn [TlsMode Certificates String.eqb Ascii.eqb Bool.eqb].
  unfold buildSelfSignedMtlsConfig, buildCertificates.
  cbn [certification.GetClientCertificate].
  destruct (buildCaCertificatePool _) as [pool [poolErr|]];
    rewrite ?Hpair; repeat split; intros; congruence.
Qed.

(** C8: when the key-pair parser accepts the client certificate and key,
    [NewTlsConfig] in mode [ca-mtls] returns no error and a configuration
    that verifies the peer, installs no root pool (the roots are those of
    the system) and carries the client certificate. *)
Theorem NewTlsConfig_ca_mtls_client_identity
    (certificates : certification.Certificates)
    (certificate : tls_Certificate) :
  tls_X509KeyPair (certification.ClientCertificate certificates)
                  (certification.ClientKey certificates)
    = (certificate, None) →
  NewTlsConfig {| TlsMode := "ca-mtls"; Certificates := certificates |}
    = (Some {| tls.InsecureSkipVerify := false;
               tls.RootCAs := None;
               tls.Certificates := [certificate] |},
       None).
Proof.
  intros Hpair.
  unfold NewTlsConfig. cbn [TlsMode Certificates String.eqb Ascii.eqb Bool.eqb].
  unfold buildCaTlsConfig, buildCertificates.
  cbn [certification.GetClientCertificate]. by rewrite Hpair.
Qed.

End FactoryProperties.

(* ===================================================================== *)
(** * The factory on the sample instance                                  *)
(* ===================================================================== *)

Section FactoryOnSample.
Import authentication.
Existing Instance sample.crypto.

Lemma NewTlsConfig_no_tls_and_unrecognized_witness :
  ("tls" ∉ recognizedModes)
  ∧ NewTlsConfig
      {| TlsMode := "tls";
         Certificates := sample.bundle sample.caPEM sample.keyPEM sample.clientPEM |}
    = NewTlsConfig
        {| TlsMode := "no-tls";
           Certificates := sample.bundle sample.caPEM sample.keyPEM sample.clientPEM |}
  ∧ NewTlsConfig
      {| TlsMode := "no-tls";
         Certificates := sample.bundle sample.caPEM sample.keyPEM sample.clientPEM |}
    = (Some {| tls.InsecureSkipVerify := true;
               tls.RootCAs := None;
               tls.Certificates := [] |},
       None).
Proof.
  assert (Hmode : "tls" ∉ recognizedModes).
  { unfold recognizedModes. rewrite !not_elem_of_cons.
    repeat split; try discriminate. apply not_elem_of_nil. }
  destruct (NewTlsConfig_no_tls_and_unrecognized
              (sample.bundle sample.caPEM sample.keyPEM sample.clientPEM))
    as [Hno_tls Hother].
  split; [exact Hmode|]. split; [exact (Hother "tls" Hmode) | exact Hno_tls].
Defined.

Lemma buildCaCertificatePool_outcomes_witness :
  ((pem_Decode []).1 = None
   ∧ buildCaCertificatePool []
     = (None,
        Some (errorString
                "failed to decode PEM block containing CA certificate")))
  ∧ ((pem_Decode [x2d; x31]).1
       = Some {| pem.Type_ := "CERTIFICATE"; pem.Headers := ∅; pem.Bytes := [x31] |}
     ∧ x509_ParseCertificate [x31]
       = inr (errorString "x509: malformed certificate")
     ∧ buildCaCertificatePool [x2d; x31]
       = (None,
          Some (wrapError "error parsing certificate: x509: malformed certificate"
                  (errorString "x509: malformed certificate"))))
  ∧ ((pem_Decode sample.caPEM).1
       = Some {| pem.Type_ := "CERTIFICATE"; pem.Headers := ∅;
                 pem.Bytes := [x30; x01] |}
     ∧ x509_ParseCertificate [x30; x01] = inl [x30; x01]
     ∧ buildCaCertificatePool sample.caPEM = (Some [[x30; x01]], None))
  ∧ NewTlsConfig
      {| TlsMode := "ss-tls";
         Certificates := sample.bundle [] sample.keyPEM sample.clientPEM |}
    = (None,
       Some (errorString
               "failed to decode PEM block containing CA certificate")).
Proof.
  pose proof (proj1 (buildCaCertificatePool_outcomes []) eq_refl) as Hnone.
  split; [split; [reflexivity | exact Hnone]|].
  split; [split; [reflexivity | split; [reflexivity|]]|].
  { exact (proj1 (proj2 (buildCaCertificatePool_outcomes [x2d; x31]))
             _ _ eq_refl eq_refl). }
  split; [split; [reflexivity | split; [reflexivity|]]|].
  { exact (proj1 (proj2 (proj2 (buildCaCertificatePool_outcomes sample.caPEM)))
             _ _ eq_refl eq_refl). }
  exact (proj2 (proj2 (proj2 (buildCaCertificatePool_outcomes [])))
           (sample.bundle [] sample.keyPEM sample.clientPEM) _ eq_refl Hnone).
Defined.

Lemma NewTlsConfig_ss_mtls_key_pair_rejected_witness :
  tls_X509KeyPair sample.clientPEM sample.otherKeyPEM
    = ([], Some (errorString "tls: private key does not match public key"))
  ∧ buildCaCertificatePool sample.caPEM = (Some [[x30; x01]], None)
  ∧ NewTlsConfig
      {| TlsMode := "ss-mtls";
         Certificates :=
           sample.bundle sample.caPEM sample.otherKeyPEM sample.clientPEM |}
    = (None, Some (errorString "tls: private key does not match public key")).
Proof.
  split; [reflexivity|]. split; [reflexivity|].
  exact (proj1 (proj2
           (NewTlsConfig_ss_mtls_key_pair_rejected
              (sample.bundle sample.caPEM sample.otherKeyPEM sample.clientPEM)
              [] (errorString "tls: private key does not match public key")
              eq_refl))
           (Some [[x30; x01]]) eq_refl).
Defined.

(** C4 as it was stated fails for a bundle whose CA certificate is no PEM:
    the client certificate and key do not fit, and yet the error returned is
    the one of [buildCaCertificatePool], not the one of the key-pair
    parser. *)
Lemma ss_mtls_reports_ca_error_before_key_pair_error :
  tls_X509KeyPair sample.clientPEM sample.otherKeyPEM
    = ([], Some (errorString "tls: private key does not match public key"))
  ∧ NewTlsConfig
      {| TlsMode := "ss-mtls";
         Certificates := sample.bundle [] sample.otherKeyPEM sample.clientPEM |}
    = (None,
       Some (errorString
               "failed to decode PEM block containing CA certificate"))
  ∧ NewTlsConfig
      {| TlsMode := "ss-mtls";
         Certificates := sample.bundle [] sample.otherKeyPEM sample.clientPEM |}
    ≠ (None, Some (errorString "tls: private key does not match public key")).
Proof. split; [reflexivity|]. split; [reflexivity|]. discriminate. Qed.

Lemma NewTlsConfig_ca_mtls_client_identity_witness :
  tls_X509KeyPair sample.clientPEM sample.keyPEM = ([[x30; x02]], None)
  ∧ NewTlsConfig
      {| TlsMode := "ca-mtls";
         Certificates := sample.bundle [] sample.keyPEM sample.clientPEM |}
    = (Some {| tls.InsecureSkipVerify := false;
               tls.RootCAs := None;
               tls.Certificates := [[[x30; x02]]] |},
       None).
Proof.
  split; [reflexivity|].
  exact (NewTlsConfig_ca_mtls_client_identity
           (sample.bundle [] sample.keyPEM sample.clientPEM) [[x30; x02]]
           eq_refl).
Defined.

End FactoryOnSample.

(* ===================================================================== *)
(** * More on [parseHosts]                                                *)
(* ===================================================================== *)

Section ParseHostsProperties.
Import configuration.

Lemma fields_append (sep : ascii) (a b : string) :
  strings.fields sep (a +:+ String sep b)
    = strings.fields sep a ++ strings.fields sep b.
Proof.
  induction a as [|c a IH]; simpl.
  - by rewrite Ascii.eqb_refl.
  - rewrite IH. destruct (Ascii.eqb c sep); [done|].
    pose proof (fields_not_nil sep a) as Hnil.
    by destruct (strings.fields sep a).
Qed.

(** [parseHosts] loses nothing: two values of the key that give the same
    host list are the same string. *)
Theorem parseHosts_injective (s1 s2 : string) :
  parseHosts s1 = parseHosts s2 → s1 = s2.
Proof.
  unfold parseHosts. rewrite !Split_fields. intros Heq.
  rewrite <- (Join_fields "," s1), <- (Join_fields "," s2). by rewrite Heq.
Qed.

Lemma parseHosts_injective_witness :
  parseHosts "a,b" = parseHosts "a,b" ∧ "a,b" = "a,b".
Proof.
  split; [reflexivity|]. exact (parseHosts_injective "a,b" "a,b" eq_refl).
Defined.

(** Every non-empty list of hosts without commas is the host list of some
    value of the key, namely of the hosts joined by commas: [parseHosts]
    undoes [strings.Join]. *)
Theorem parseHosts_of_Join (hosts : list string) :
  hosts ≠ [] →
  Forall (λ host, strings.ContainsByte host "," = false) hosts →
  parseHosts (strings.Join hosts ",") = hosts.
Proof.
  intros Hnil Hfree. unfold parseHosts. rewrite Split_fields.
  by apply fields_Join.
Qed.

Lemma parseHosts_of_Join_witness :
  (["10.0.0.1:9000"; ""; " nginx "] ≠ [])
  ∧ Forall (λ host, strings.ContainsByte host "," = false)
           ["10.0.0.1:9000"; ""; " nginx "]
  ∧ parseHosts (strings.Join ["10.0.0.1:9000"; ""; " nginx "] ",")
    = ["10.0.0.1:9000"; ""; " nginx "].
Proof.
  assert (Hnil : ["10.0.0.1:9000"; ""; " nginx "] ≠ @nil string) by discriminate.
  assert (Hfree : Forall (λ host, strings.ContainsByte host "," = false)
                         ["10.0.0.1:9000"; ""; " nginx "])
    by (repeat constructor).
  split; [exact Hnil|]. split; [exact Hfree|].
  exact (parseHosts_of_Join _ Hnil Hfree).
Defined.

(** The host list of two values put together with a comma between them is
    the one list followed by the other.  So a comma at the end adds an empty
    host at the end, and a comma at the start adds one at the start. *)
Theorem parseHosts_comma_append (a b : string) :
  parseHosts (a +:+ String "," b) = parseHosts a ++ parseHosts b
  ∧ parseHosts (a +:+ ",") = parseHosts a ++ [""]
  ∧ parseHosts (String "," b) = "" :: parseHosts b.
Proof.
  unfold parseHosts. rewrite !Split_fields.
  split; [apply fields_append|]. split.
  - apply (fields_append "," a "").
  - apply (fields_append "," "" b).
Qed.

(** The value of the key is a single host, itself, exactly when it holds no
    comma; blanks and anything else in it are kept. *)
Theorem parseHosts_single_host (s : string) :
  parseHosts s = [s] ↔ strings.ContainsByte s "," = false.
Proof.
  unfold parseHosts, strings.ContainsByte. rewrite Split_fields, Z.leb_gt.
  split.
  - intros Hone. apply IndexByte_absent.
    pose proof (length_fields "," s) as Hlen. rewrite Hone in Hlen.
    simpl in Hlen. lia.
  - apply fields_absent.
Qed.

End ParseHostsProperties.

(* ===================================================================== *)
(** * More on the handlers along a sequence of notifications              *)
(* ===================================================================== *)

Section DeliveryInvariants.
Import configuration observe.

Lemma withHosts_same (s : Settings) : withHosts (NginxPlusHosts s) s = s.
Proof. by destruct s. Qed.

(** What one notification does to the world, by the case of its handler. *)
Lemma deliver_cases (n : Notification) (w : World) :
  ∃ more,
    log (worldOf (deliver handlers n w)) = log w ++ more
    ∧ settings (worldOf (deliver handlers n w))
      = withHosts (default (NginxPlusHosts (settings w)) (installedBy n))
          (settings w)
    ∧ panicked (deliver handlers n w) = dereferencesNil n
    ∧ (panicked (deliver handlers n w) = true →
       settings (worldOf (deliver handlers n w)) = settings w)
    ∧ (panicked (deliver handlers n w) = false →
       errorEntries more = if replacesHosts n then 0%nat else 1%nat).
Proof.
  destruct n as [obj|obj newObj|obj]; simpl.
  - unfold handleAddEvent, bind, Debug, emit. rewrite handleUpdateEvent_cases.
    cbv zeta. unfold hostsField, dereferencesNil, logged.
    destruct obj as [|[configMap|]|dynamicType]; simpl;
      rewrite <- ?app_assoc, ?withHosts_same;
      try (eexists; repeat split; done).
    destruct (corev1.Data configMap !! "nginx-hosts") eqn:Hkey; simpl;
      rewrite <- ?app_assoc, ?withHosts_same;
      eexists; repeat split; done.
  - rewrite handleUpdateEvent_cases.
    cbv zeta. unfold hostsField, dereferencesNil, logged.
    destruct obj as [|[configMap|]|dynamicType]; simpl;
      rewrite <- ?app_assoc, ?withHosts_same;
      try (eexists; repeat split; done).
    destruct (corev1.Data configMap !! "nginx-hosts") eqn:Hkey; simpl;
      rewrite <- ?app_assoc, ?withHosts_same;
      eexists; repeat split; done.
  - eexists. repeat split; done.
Qed.

Lemma deliverAll_app (ns1 ns2 : list Notification) (w : World) :
  deliverAll handlers (ns1 ++ ns2) w
    = bind (deliverAll handlers ns1) (λ _, deliverAll handlers ns2) w.
Proof.
  revert w. induction ns1 as [|n ns1 IH]; intros w; [done|].
  simpl. unfold bind in *. destruct (deliver handlers n w); [apply IH|done].
Qed.

Lemma panicked_deliverAll (ns : list Notification) (w : World) :
  panicked (deliverAll handlers ns w) = existsb dereferencesNil ns.
Proof.
  revert w. induction ns as [|n ns IH]; intros w; [done|].
  destruct (deliver_cases n w) as (more & _ & _ & Hpanic & _).
  simpl. unfold bind. rewrite <- Hpanic.
  destruct (deliver handlers n w); simpl; [apply IH|done].
Qed.

Lemma settings_deliverAll (ns : list Notification) (w : World) :
  settings (worldOf (deliverAll handlers ns w))
    = withHosts (hostsOf (deliverAll handlers ns w)) (settings w).
Proof.
  unfold hostsOf. revert w. induction ns as [|n ns IH]; intros w.
  - simpl. by rewrite withHosts_same.
  - destruct (deliver_cases n w) as (more & _ & Hset & _ & _).
    simpl. unfold bind.
    destruct (deliver handlers n w) as [[] w1|reason w1]; simpl in *.
    + rewrite IH, Hset. done.
    + rewrite Hset. done.
Qed.

(** Event handling writes the host list and nothing else.  After any
    sequence of notifications, also one that ends in a panic, every other
    field of the settings is as it was: the context, the client set, the
    informer and its registration, and the settings of the handler, the
    synchronizer and the watcher. *)
Theorem deliverAll_writes_hosts_only (ns : list Notification) (w : World) :
  let after := settings (worldOf (deliverAll handlers ns w)) in
  after = withHosts (NginxPlusHosts after) (settings w)
  ∧ Context after = Context (settings w)
  ∧ K8sClient after = K8sClient (settings w)
  ∧ informer after = informer (settings w)
  ∧ eventHandlerRegistration after = eventHandlerRegistration (settings w)
  ∧ Handler after = Handler (settings w)
  ∧ Synchronizer after = Synchronizer (settings w)
  ∧ Watcher after = Watcher (settings w).
Proof.
  cbv zeta. pose proof (settings_deliverAll ns w) as Hset. unfold hostsOf in Hset.
  split; [exact Hset|]. rewrite Hset. by repeat split.
Qed.

(** The handlers only add to the log, and when all of them returned they
    have logged at error level once for each addition or update that did not
    replace the host list (no ConfigMap, or no [nginx-hosts] key), and never
    otherwise. *)
Theorem deliverAll_logs_one_error_per_discarded (ns : list Notification)
    (w : World) :
  ∃ more,
    log (worldOf (deliverAll handlers ns w)) = log w ++ more
    ∧ (panicked (deliverAll handlers ns w) = false →
       errorEntries more
         = length (filter (λ n, replacesHosts n = false) ns)).
Proof.
  revert w. induction ns as [|n ns IH]; intros w.
  - exists []. simpl. by rewrite app_nil_r.
  - destruct (deliver_cases n w) as (more1 & Hlog1 & _ & _ & _ & Herr1).
    simpl. unfold bind.
    destruct (deliver handlers n w) as [[] w1|reason w1]; simpl in *.
    + destruct (IH w1) as (more2 & Hlog2 & Herr2).
      exists (more1 ++ more2). rewrite Hlog2, Hlog1, app_assoc.
      split; [done|]. intros Hp.
      unfold errorEntries in *. rewrite filter_app, length_app.
      rewrite (Herr1 eq_refl), (Herr2 Hp), filter_cons.
      destruct (replacesHosts n);
        [rewrite decide_False by done | rewrite decide_True by done];
        simpl; lia.
    + exists more1. split; [done|]. done.
Qed.

Lemma deliverAll_logs_one_error_per_discarded_witness :
  panicked (deliverAll handlers sample.notifications (initial None None)) = false
  ∧ ∃ more,
      log (worldOf (deliverAll handlers sample.notifications (initial None None)))
        = log (initial None None) ++ more
      ∧ errorEntries more = 2%nat.
Proof.
  assert (Hp : panicked
                 (deliverAll handlers sample.notifications (initial None None))
               = false) by (vm_compute; reflexivity).
  split; [exact Hp|].
  destruct (deliverAll_logs_one_error_per_discarded
              sample.notifications (initial None None))
    as (more & Hlog & Herr).
  exists more. split; [exact Hlog|]. rewrite (Herr Hp). vm_compute; reflexivity.
Defined.

(** The host list after a sequence of notifications does not depend on the
    state before it, as soon as one of the notifications replaces the list:
    from any two states the handlers leave the same host list, the one of
    the last notification that replaced it. *)
Theorem deliverAll_hosts_forget_the_past (ns : list Notification)
    (w1 w2 : World) :
  is_Some (lastReplacement ns) →
  panicked (deliverAll handlers ns w1) = false →
  panicked (deliverAll handlers ns w2) = false
  ∧ hostsOf (deliverAll handlers ns w1) = hostsOf (deliverAll handlers ns w2)
  ∧ ∃ n, lastReplacement ns = Some n
         ∧ Some (hostsOf (deliverAll handlers ns w1)) = installedBy n.
Proof.
  intros [n Hlast] Hp1.
  assert (Hp2 : panicked (deliverAll handlers ns w2) = false)
    by (rewrite panicked_deliverAll in *; done).
  assert (Hhosts : ∀ w, panicked (deliverAll handlers ns w) = false →
            Some (hostsOf (deliverAll handlers ns w)) = installedBy n).
  { intros w Hp. unfold hostsOf.
    destruct (deliverAll handlers ns w) as [[] w'|reason w'] eqn:Hrun; [|done].
    simpl. rewrite (deliverAll_hosts _ _ _ Hrun), Hlast.
    apply lastReplacement_replaces, replacesHosts_installedBy in Hlast
      as [hosts ->]. done. }
  split; [exact Hp2|]. split.
  - pose proof (Hhosts w1 Hp1) as H1. pose proof (Hhosts w2 Hp2) as H2.
    congruence.
  - exists n. split; [done|]. by apply Hhosts.
Qed.

Lemma deliverAll_hosts_forget_the_past_witness :
  is_Some (lastReplacement sample.notifications)
  ∧ panicked (deliverAll handlers sample.notifications (sample.world ["10.9.9.9"]))
    = false
  ∧ hostsOf (deliverAll handlers sample.notifications (sample.world ["10.9.9.9"]))
    = hostsOf (deliverAll handlers sample.notifications (sample.world [])).
Proof.
  assert (Hlast : is_Some (lastReplacement sample.notifications))
    by (vm_compute; eauto).
  assert (Hp : panicked
                 (deliverAll handlers sample.notifications
                    (sample.world ["10.9.9.9"])) = false)
    by (vm_compute; reflexivity).
  split; [exact Hlast|]. split; [exact Hp|].
  exact (proj1 (proj2 (deliverAll_hosts_forget_the_past
                         sample.notifications (sample.world ["10.9.9.9"])
                         (sample.world []) Hlast Hp))).
Defined.

(** Delivering a notification a second time changes nothing but the log:
    the settings after the sequence with the notification repeated at the
    end are those after the sequence itself, and the one run panics when
    the other does. *)
Theorem deliverAll_repeat_last (ns : list Notification) (n : Notification)
    (w : World) :
  settings (worldOf (deliverAll handlers (ns ++ [n; n]) w))
    = settings (worldOf (deliverAll handlers (ns ++ [n]) w))
  ∧ panicked (deliverAll handlers (ns ++ [n; n]) w)
    = panicked (deliverAll handlers (ns ++ [n]) w).
Proof.
  split.
  - rewrite !deliverAll_app. unfold bind.
    destruct (deliverAll handlers ns w) as [[] w1|reason w1]; [|done].
    destruct (deliver_cases n w1) as (more & _ & Hset & _ & Hkeep & _).
    cbn [deliverAll]. unfold bind.
    destruct (deliver handlers n w1) as [[] w2|reason w2] eqn:Hn; [|done].
    cbn [worldOf] in Hset.
    destruct (deliver_cases n w2) as (more' & _ & Hset' & _ & Hkeep' & _).
    destruct (deliver handlers n w2) as [[] w3|reason w3]; simpl in *.
    + rewrite Hset', Hset. simpl. by destruct (installedBy n).
    + by rewrite Hkeep'.
  - rewrite !panicked_deliverAll, !existsb_app. simpl.
    by destruct (dereferencesNil n).
Qed.

(** A run of the handlers panics exactly when one of the notifications has
    a nil pointer to a ConfigMap where its handler looks (a deletion never
    does); the notifications after that one are not delivered, and the
    settings are those that the notifications before it left. *)
Theorem deliverAll_panics_on_nil_pointer (ns : list Notification) (w : World) :
  panicked (deliverAll handlers ns w) = existsb dereferencesNil ns
  ∧ (∀ n, isDelete n = true → dereferencesNil n = false)
  ∧ (∀ before n after,
       ns = before ++ n :: after →
       existsb dereferencesNil before = false →
       dereferencesNil n = true →
       panicked (deliverAll handlers ns w) = true
       ∧ settings (worldOf (deliverAll handlers ns w))
         = settings (worldOf (deliverAll handlers before w))).
Proof.
  split; [apply panicked_deliverAll|]. split.
  - by intros [obj|obj newObj|obj].
  - intros before n after -> Hbefore Hn.
    split.
    + rewrite panicked_deliverAll, existsb_app. simpl. rewrite Hn.
      by rewrite orb_true_r.
    + rewrite deliverAll_app. unfold bind.
      rewrite <- panicked_deliverAll with (w := w) in Hbefore.
      destruct (deliverAll handlers before w) as [[] w1|reason w1]; [|done].
      destruct (deliver_cases n w1) as (more & _ & _ & Hpanic & Hkeep & _).
      rewrite Hn in Hpanic. cbn [deliverAll]. unfold bind.
      destruct (deliver handlers n w1) as [[] w2|reason w2]; [done|].
      by apply Hkeep.
Qed.

Lemma deliverAll_panics_on_nil_pointer_witness :
  sample.crashing
    = take 1 sample.crashing
        ++ configuration.updateNotification
             (ConfigMapPointer None)
             (ConfigMapPointer (Some (sample.hostsConfigMap "10.0.0.2")))
        :: drop 2 sample.crashing
  ∧ panicked (deliverAll handlers sample.crashing (initial None None)) = true
  ∧ settings (worldOf (deliverAll handlers sample.crashing (initial None None)))
    = settings
        (worldOf (deliverAll handlers (take 1 sample.crashing) (initial None None)))
  ∧ hostsOf (deliverAll handlers (take 1 sample.crashing) (initial None None))
    = ["10.0.0.1"].
Proof.
  split; [reflexivity|].
  destruct (proj2 (proj2 (deliverAll_panics_on_nil_pointer
                            sample.crashing (initial None None)))
              (take 1 sample.crashing) _ (drop 2 sample.crashing)
              eq_refl eq_refl eq_refl) as [Hp Hset].
  split; [exact Hp|]. split; [exact Hset|]. vm_compute; reflexivity.
Defined.

End DeliveryInvariants.

(* ===================================================================== *)
(** * Properties of [Initialize]                                          *)
(* ===================================================================== *)

Section InitializeProperties.
Context `{ClientGo}.
Import configuration initialization.

Lemma Initialize_run (w : World) :
  Initialize w
    = Returns
        (match (AddEventHandler
                  (ConfigMapsInformer (K8sClient (settings w)) 0 "nkl")
                  handlers).2 with
         | Some err =>
             Some (fmt.Errorf_w "error occurred initializing event listeners: "
                     (fmt.Errorf_w "error occurred registering event handlers: "
                        err))
         | None => None
         end)
        (initialized w).
Proof.
  unfold Initialize, initialized, initializeEventListeners, buildInformer,
    bind, Info, Debug, emit, modify, ret, logged.
  cbn [settings log withInformer informer K8sClient].
  change ResyncPeriod with 0. change ConfigMapsNamespace with "nkl".
  destruct (AddEventHandler _ handlers) as [registration [err|]];
    cbn [fst snd]; by rewrite <- app_assoc.
Qed.

(** [Initialize] always returns: it does not panic, and it fails exactly
    when [AddEventHandler] does.  Its error then wraps the error of
    [initializeEventListeners], which wraps the one of [AddEventHandler]:
    unwrapping twice gives that one back, and the message is the two
    prefixes before its message.  The error for a failed construction of the
    informer is never returned. *)
Theorem Initialize_fails_as_AddEventHandler (w : World) :
  let i := ConfigMapsInformer (K8sClient (settings w)) 0 "nkl" in
  ∃ result w',
    Initialize w = Returns result w'
    ∧ (result = None ↔ (AddEventHandler i handlers).2 = None)
    ∧ (∀ err,
         (AddEventHandler i handlers).2 = Some err →
         ∃ failure,
           result = Some failure
           ∧ (Unwrap failure ≫= Unwrap) = Some err
           ∧ Error failure
             = "error occurred initializing event listeners: "
               +:+ "error occurred registering event handlers: "
               +:+ Error err)
    ∧ (∀ failure err,
         result = Some failure →
         failure
           ≠ fmt.Errorf_w "error occurred building ConfigMap informer: " err).
Proof.
  cbv zeta. rewrite Initialize_run. eexists _, _. split; [reflexivity|].
  destruct (AddEventHandler _ handlers) as [registration [err|]]; cbn [snd].
  - split; [split; discriminate|]. split.
    + intros ? [= <-]. eexists. split; [reflexivity|]. split; reflexivity.
    + intros failure err' [= <-]. discriminate.
  - split; [done|]. split; [discriminate|]. discriminate.
Qed.

(** [Initialize] stores the informer of the ConfigMaps of the namespace
    [nkl], made for the client set of the settings with resync period 0, and
    the registration that [AddEventHandler] returned for the three handlers,
    also when it returned an error.  The host list and every other field of
    the settings are as they were. *)
Theorem Initialize_stores_informer_and_registration (w : World) :
  let i := ConfigMapsInformer (K8sClient (settings w)) 0 "nkl" in
  let after := settings (worldOf (Initialize w)) in
  informer after = Some i
  ∧ eventHandlerRegistration after
    = (AddEventHandler i
         {| AddFunc := handleAddEvent;
            UpdateFunc := handleUpdateEvent;
            DeleteFunc := handleDeleteEvent |}).1
  ∧ NginxPlusHosts after = NginxPlusHosts (settings w)
  ∧ Context after = Context (settings w)
  ∧ K8sClient after = K8sClient (settings w)
  ∧ Handler after = Handler (settings w)
  ∧ Synchronizer after = Synchronizer (settings w)
  ∧ Watcher after = Watcher (settings w).
Proof. cbv zeta. rewrite Initialize_run. by repeat split. Qed.

(** From [NewSettings] through [Initialize] and any sequence of
    notifications, the retry counts, thread counts, rate limits, jitter
    bounds and the namespace of the ingress stay what [NewSettings] made
    them, and the informer and the registration stay what [Initialize] made
    them. *)
Theorem settings_constant_after_Initialize
    (ctx k8sClient : Reference) (ns : list Notification) :
  let w0 := initial ctx k8sClient in
  let w1 := worldOf (Initialize w0) in
  let after := settings (worldOf (deliverAll handlers ns w1)) in
  Handler after = Handler (NewSettings ctx k8sClient)
  ∧ Synchronizer after = Synchronizer (NewSettings ctx k8sClient)
  ∧ Watcher after = Watcher (NewSettings ctx k8sClient)
  ∧ Context after = ctx
  ∧ K8sClient after = k8sClient
  ∧ informer after = informer (settings w1)
  ∧ eventHandlerRegistration after = eventHandlerRegistration (settings w1)
  ∧ RateLimiterBase (h_WorkQueueSettings (Handler after))
    < RateLimiterMax (h_WorkQueueSettings (Handler after))
  ∧ RateLimiterBase (s_WorkQueueSettings (Synchronizer after))
    < RateLimiterMax (s_WorkQueueSettings (Synchronizer after))
  ∧ MinMillisecondsJitter (Synchronizer after)
    < MaxMillisecondsJitter (Synchronizer after).
Proof.
  cbv zeta. rewrite settings_deliverAll, Initialize_run. by repeat split.
Qed.

End InitializeProperties.

Section InitializeOnSample.
Import configuration initialization.

Lemma Initialize_fails_as_AddEventHandler_witness :
  (AddEventHandler (ClientGo := sampleClientGo.refusing)
     (ConfigMapsInformer (ClientGo := sampleClientGo.refusing)
        (K8sClient (settings (initial None None))) 0 "nkl")
     handlers).2
    = Some sampleClientGo.refusal
  ∧ ∃ result w' failure,
      Initialize (H := sampleClientGo.refusing) (initial None None)
        = Returns result w'
      ∧ result = Some failure
      ∧ (Unwrap failure ≫= Unwrap) = Some sampleClientGo.refusal
      ∧ Error failure
        = "error occurred initializing event listeners: error occurred registering event handlers: handler registration refused".
Proof.
  split; [reflexivity|].
  destruct (Initialize_fails_as_AddEventHandler
              (H := sampleClientGo.refusing) (initial None None))
    as (result & w' & Hrun & _ & Hfail & _).
  destruct (Hfail sampleClientGo.refusal eq_refl)
    as (failure & Hresult & Hunwrap & Hmessage).
  exists result, w', failure.
  split; [exact Hrun|]. split; [exact Hresult|]. split; [exact Hunwrap|].
  exact Hmessage.
Defined.

End InitializeOnSample.

(* ===================================================================== *)
(** * More on the factory                                                 *)
(* ===================================================================== *)

(** A literal is in a list of literals; a membership that can only hold by
    an equation between different literals does not hold. *)
Ltac handled := unfold observe.handledModes; repeat constructor.
Ltac unhandled Hin :=
  repeat (apply elem_of_cons in Hin as [Hin|Hin]; [done|]);
  by apply elem_of_nil in Hin.

Section FactoryInvariants.
Context `{Crypto}.
Import authentication observe.

(** The branch of the [switch] that a mode takes. *)
Lemma NewTlsConfig_branch (mode : string)
    (certificates : certification.Certificates) :
  (mode = "ss-tls"
   ∧ NewTlsConfig {| TlsMode := mode; Certificates := certificates |}
     = buildSelfSignedTlsConfig certificates)
  ∨ (mode = "ss-mtls"
     ∧ NewTlsConfig {| TlsMode := mode; Certificates := certificates |}
       = buildSelfSignedMtlsConfig certificates)
  ∨ (mode = "ca-tls"
     ∧ NewTlsConfig {| TlsMode := mode; Certificates := certificates |}
       = (Some (buildBasicTlsConfig false), None))
  ∨ (mode = "ca-mtls"
     ∧ NewTlsConfig {| TlsMode := mode; Certificates := certificates |}
       = buildCaTlsConfig certificates)
  ∨ ((mode ∉ handledModes)
     ∧ NewTlsConfig {| TlsMode := mode; Certificates := certificates |}
       = (Some (buildBasicTlsConfig true), None)).
Proof.
  unfold NewTlsConfig. cbn [TlsMode Certificates].
  destruct (String.eqb_spec mode "ss-tls") as [->|Hss_tls]; [by left|].
  destruct (String.eqb_spec mode "ss-mtls") as [->|Hss_mtls];
    [by right; left|].
  destruct (String.eqb_spec mode "ca-tls") as [->|Hca_tls];
    [by right; right; left|].
  destruct (String.eqb_spec mode "ca-mtls") as [->|Hca_mtls];
    [by right; right; right; left|].
  right; right; right; right. split; [|done].
  unfold handledModes. rewrite !not_elem_of_cons.
  repeat split; try done. apply not_elem_of_nil.
Qed.

(** A pool that [buildCaCertificatePool] returns holds one certificate, and
    comes without an error; an error comes without a pool. *)
Lemma buildCaCertificatePool_shape (caCert : bytes) :
  (∃ cert, buildCaCertificatePool caCert = (Some [cert], None))
  ∨ (∃ err, buildCaCertificatePool caCert = (None, Some err)).
Proof.
  unfold buildCaCertificatePool.
  destruct (pem_Decode caCert) as [[block|] rest]; [|by right; eexists].
  destruct (x509_ParseCertificate (pem.Bytes block)) as [cert|err];
    [left; exists cert|by right; eexists].
  unfold x509.AddCert, x509.NewCertPool.
  by rewrite decide_False by apply not_elem_of_nil.
Qed.

(** What each builder returns, by what the parsers say. *)
Lemma builders_shape (certificates : certification.Certificates) :
  ((∃ cert, buildSelfSignedTlsConfig certificates
            = (Some {| tls.InsecureSkipVerify := false;
                       tls.RootCAs := Some [cert];
                       tls.Certificates := [] |}, None))
   ∨ (∃ err, buildSelfSignedTlsConfig certificates = (None, Some err)))
  ∧ ((∃ cert certificate,
        buildSelfSignedMtlsConfig certificates
        = (Some {| tls.InsecureSkipVerify := false;
                   tls.RootCAs := Some [cert];
                   tls.Certificates := [certificate] |}, None))
     ∨ (∃ err, buildSelfSignedMtlsConfig certificates = (None, Some err)))
  ∧ ((∃ certificate,
        buildCaTlsConfig certificates
        = (Some {| tls.InsecureSkipVerify := false;
                   tls.RootCAs := None;
                   tls.Certificates := [certificate] |}, None))
     ∨ (∃ err, buildCaTlsConfig certificates = (None, Some err))).
Proof.
  unfold buildSelfSignedTlsConfig, buildSelfSignedMtlsConfig, buildCaTlsConfig,
    buildCertificates.
  cbn [certification.GetClientCertificate].
  destruct (buildCaCertificatePool_shape
              (certification.GetCACertificate certificates))
    as [[cert ->]|[err ->]];
    destruct (tls_X509KeyPair (certification.ClientCertificate certificates)
                (certification.ClientKey certificates))
      as [certificate [pairErr|]];
    repeat split; eauto.
Qed.

(** In every mode and for every bundle [NewTlsConfig] returns either a
    configuration and a nil error, or a nil configuration and an error:
    never both, never neither. *)
Theorem NewTlsConfig_config_or_error (settings : Settings) :
  (∃ config, NewTlsConfig settings = (Some config, None))
  ∨ (∃ err, NewTlsConfig settings = (None, Some err)).
Proof.
  destruct settings as [mode certificates].
  destruct (builders_shape certificates) as (Hss_tls & Hss_mtls & Hca_mtls).
  destruct (NewTlsConfig_branch mode certificates)
    as [[_ ->]|[[_ ->]|[[_ ->]|[[_ ->]|[_ ->]]]]].
  - destruct Hss_tls as [[? ->]|[? ->]]; eauto.
  - destruct Hss_mtls as [(? & ? & ->)|[? ->]]; eauto.
  - eauto.
  - destruct Hca_mtls as [[? ->]|[? ->]]; eauto.
  - eauto.
Qed.

(** A configuration that [NewTlsConfig] returns skips the verification of
    the peer exactly when the mode is none of [ss-tls], [ss-mtls], [ca-tls]
    and [ca-mtls]; a mode that differs from these in one letter or in case
    is among those that skip it. *)
Theorem NewTlsConfig_skips_verification_iff_unhandled
    (settings : Settings) (config : tls.Config) :
  (NewTlsConfig settings).1 = Some config →
  tls.InsecureSkipVerify config = true ↔ TlsMode settings ∉ handledModes.
Proof.
  destruct settings as [mode certificates]. cbn [TlsMode].
  destruct (builders_shape certificates) as (Hss_tls & Hss_mtls & Hca_mtls).
  destruct (NewTlsConfig_branch mode certificates)
    as [[-> ->]|[[-> ->]|[[-> ->]|[[-> ->]|[Hmode ->]]]]].
  - destruct Hss_tls as [[? ->]|[? ->]]; [|done]. intros [= <-]. simpl.
    split; [done|]. intros Hn. destruct Hn. handled.
  - destruct Hss_mtls as [(? & ? & ->)|[? ->]]; [|done]. intros [= <-]. simpl.
    split; [done|]. intros Hn. destruct Hn. handled.
  - intros [= <-]. simpl.
    split; [done|]. intros Hn. destruct Hn. handled.
  - destruct Hca_mtls as [[? ->]|[? ->]]; [|done]. intros [= <-]. simpl.
    split; [done|]. intros Hn. destruct Hn. handled.
  - intros [= <-]. simpl. done.
Qed.

(** A configuration that [NewTlsConfig] returns has a root pool exactly in
    the modes [ss-tls] and [ss-mtls], and the pool then holds one
    certificate; it carries one client certificate in the modes [ss-mtls]
    and [ca-mtls] and none in any other mode. *)
Theorem NewTlsConfig_roots_and_identity_by_mode
    (settings : Settings) (config : tls.Config) :
  (NewTlsConfig settings).1 = Some config →
  (is_Some (tls.RootCAs config) ↔ TlsMode settings ∈ ["ss-tls"; "ss-mtls"])
  ∧ (∀ pool, tls.RootCAs config = Some pool → length pool = 1%nat)
  ∧ length (tls.Certificates config)
    = (if bool_decide (TlsMode settings ∈ ["ss-mtls"; "ca-mtls"])
       then 1%nat else 0%nat).
Proof.
  destruct settings as [mode certificates]. cbn [TlsMode].
  destruct (builders_shape certificates) as (Hss_tls & Hss_mtls & Hca_mtls).
  destruct (NewTlsConfig_branch mode certificates)
    as [[-> ->]|[[-> ->]|[[-> ->]|[[-> ->]|[Hmode ->]]]]].
  - destruct Hss_tls as [[? ->]|[? ->]]; [|done]. intros [= <-]. simpl.
    split; [split; [intros; handled|eauto]|].
    split; [by intros ? [= <-]|done].
  - destruct Hss_mtls as [(? & ? & ->)|[? ->]]; [|done]. intros [= <-]. simpl.
    split; [split; [intros; handled|eauto]|].
    split; [by intros ? [= <-]|done].
  - intros [= <-]. simpl.
    split; [split; [by intros [? ?]|intros Hin; by unhandled Hin]|].
    split; [done|done].
  - destruct Hca_mtls as [[? ->]|[? ->]]; [|done]. intros [= <-]. simpl.
    split; [split; [by intros [? ?]|intros Hin; by unhandled Hin]|].
    split; [done|done].
  - intros [= <-]. simpl. unfold handledModes in Hmode.
    rewrite !not_elem_of_cons in Hmode.
    destruct Hmode as (Hss_tls' & Hss_mtls' & Hca_tls' & Hca_mtls' & _).
    split; [split; [by intros [? ?]|intros Hin; by unhandled Hin]|].
    split; [done|].
    rewrite bool_decide_eq_false_2; [done|]. intros Hin. by unhandled Hin.
Qed.

End FactoryInvariants.

Section FactoryInvariantsOnSample.
Import authentication observe.
Existing Instance sample.crypto.

Lemma NewTlsConfig_skips_verification_iff_unhandled_witness :
  (NewTlsConfig (H := sample.crypto)
     {| TlsMode := "SS-TLS";
        Certificates := sample.bundle sample.caPEM sample.keyPEM sample.clientPEM |}).1
    = Some {| tls.InsecureSkipVerify := true;
              tls.RootCAs := None;
              tls.Certificates := [] |}
  ∧ ("SS-TLS" ∉ handledModes).
Proof.
  split; [reflexivity|].
  exact (proj1 (NewTlsConfig_skips_verification_iff_unhandled
                  (H := sample.crypto)
                  {| TlsMode := "SS-TLS";
                     Certificates :=
                       sample.bundle sample.caPEM sample.keyPEM sample.clientPEM |}
                  _ eq_refl) eq_refl).
Defined.

Lemma NewTlsConfig_roots_and_identity_by_mode_witness :
  (NewTlsConfig (H := sample.crypto)
     {| TlsMode := "ss-mtls";
        Certificates := sample.bundle sample.caPEM sample.keyPEM sample.clientPEM |}).1
    = Some {| tls.InsecureSkipVerify := false;
              tls.RootCAs := Some [[x30; x01]];
              tls.Certificates := [[[x30; x02]]] |}
  ∧ ("ss-mtls" ∈ ["ss-tls"; "ss-mtls"]).
Proof.
  split; [reflexivity|].
  exact (proj1 (proj1 (NewTlsConfig_roots_and_identity_by_mode
                         (H := sample.crypto)
                         {| TlsMode := "ss-mtls";
                            Certificates :=
                              sample.bundle sample.caPEM sample.keyPEM
                                sample.clientPEM |}
                         _ eq_refl))
           (ex_intro _ _ eq_refl)).
Defined.

End FactoryInvariantsOnSample.

Section FactoryByMode.
Context `{Crypto}.
Import authentication observe.

(** [NewTlsConfig] reads of the bundle only what its mode needs.  In mode
    [ca-tls] and in every mode without a case of its own it reads nothing;
    in mode [ss-tls] it reads the CA certificate alone; in mode [ca-mtls] it
    reads the client certificate and key alone.  Material that the mode does
    not need, malformed or not, has no part in the result. *)
Theorem NewTlsConfig_reads_what_the_mode_needs
    (mode : string) (c1 c2 : certification.Certificates) :
  (mode = "ca-tls" ∨ mode ∉ handledModes →
   NewTlsConfig {| TlsMode := mode; Certificates := c1 |}
     = NewTlsConfig {| TlsMode := mode; Certificates := c2 |})
  ∧ (mode = "ss-tls" →
     certification.CACertificate c1 = certification.CACertificate c2 →
     NewTlsConfig {| TlsMode := mode; Certificates := c1 |}
       = NewTlsConfig {| TlsMode := mode; Certificates := c2 |})
  ∧ (mode = "ca-mtls" →
     certification.ClientKey c1 = certification.ClientKey c2 →
     certification.ClientCertificate c1 = certification.ClientCertificate c2 →
     NewTlsConfig {| TlsMode := mode; Certificates := c1 |}
       = NewTlsConfig {| TlsMode := mode; Certificates := c2 |}).
Proof.
  split; [|split].
  - intros [->|Hn]; [done|].
    destruct (NewTlsConfig_branch mode c1)
      as [[Hm _]|[[Hm _]|[[Hm _]|[[Hm _]|[_ ->]]]]];
      try (destruct Hn; rewrite Hm; handled).
    destruct (NewTlsConfig_branch mode c2)
      as [[Hm _]|[[Hm _]|[[Hm _]|[[Hm _]|[_ ->]]]]];
      try (destruct Hn; rewrite Hm; handled).
    done.
  - intros -> Hca. unfold NewTlsConfig, buildSelfSignedTlsConfig.
    cbn [TlsMode Certificates String.eqb Ascii.eqb Bool.eqb].
    unfold certification.GetCACertificate. by rewrite Hca.
  - intros -> Hkey Hcert. unfold NewTlsConfig, buildCaTlsConfig.
    cbn [TlsMode Certificates String.eqb Ascii.eqb Bool.eqb].
    cbn [certification.GetClientCertificate]. by rewrite Hkey, Hcert.
Qed.

(** The self-signed modes trust the CA certificate of the bundle and nothing
    else.  When the CA certificate decodes and parses, mode [ss-tls] returns
    a configuration that verifies the peer against a pool of that one
    certificate, without client certificate; mode [ss-mtls] returns the same
    with the client certificate, when the key-pair parser accepts the
    pair. *)
Theorem NewTlsConfig_self_signed_modes_pin_the_ca
    (certificates : certification.Certificates)
    (block : pem.Block) (cert : x509_Certificate) :
  (pem_Decode (certification.CACertificate certificates)).1 = Some block →
  x509_ParseCertificate (pem.Bytes block) = inl cert →
  NewTlsConfig {| TlsMode := "ss-tls"; Certificates := certificates |}
    = (Some {| tls.InsecureSkipVerify := false;
               tls.RootCAs := Some [cert];
               tls.Certificates := [] |},
       None)
  ∧ ∀ certificate,
      tls_X509KeyPair (certification.ClientCertificate certificates)
                      (certification.ClientKey certificates)
        = (certificate, None) →
      NewTlsConfig {| TlsMode := "ss-mtls"; Certificates := certificates |}
        = (Some {| tls.InsecureSkipVerify := false;
                   tls.RootCAs := Some [cert];
                   tls.Certificates := [certificate] |},
           None).
Proof.
  intros Hdecode Hparse.
  assert (Hpool : buildCaCertificatePool
                    (certification.GetCACertificate certificates)
                  = (Some [cert], None)).
  { unfold buildCaCertificatePool, certification.GetCACertificate.
    destruct (pem_Decode _) as [b rest]. cbn [fst] in Hdecode. subst b.
    rewrite Hparse. unfold x509.AddCert, x509.NewCertPool.
    by rewrite decide_False by apply not_elem_of_nil. }
  unfold NewTlsConfig, buildSelfSignedTlsConfig, buildSelfSignedMtlsConfig,
    buildCertificates.
  cbn [TlsMode Certificates String.eqb Ascii.eqb Bool.eqb].
  cbn [certification.GetClientCertificate]. rewrite Hpool.
  split; [done|]. by intros certificate ->.
Qed.

(** In mode [ca-mtls] the error of the key-pair parser comes back as it is,
    with a nil configuration, whatever the CA certificate of the bundle. *)
Theorem NewTlsConfig_ca_mtls_key_pair_rejected
    (certificates : certification.Certificates)
    (certificate : tls_Certificate) (err : error) :
  tls_X509KeyPair (certification.ClientCertificate certificates)
                  (certification.ClientKey certificates)
    = (certificate, Some err) →
  NewTlsConfig {| TlsMode := "ca-mtls"; Certificates := certificates |}
    = (None, Some err).
Proof.
  intros Hpair. unfold NewTlsConfig, buildCaTlsConfig, buildCertificates.
  cbn [TlsMode Certificates String.eqb Ascii.eqb Bool.eqb].
  cbn [certification.GetClientCertificate]. by rewrite Hpair.
Qed.

(** [buildCaCertificatePool] looks at the bytes of the first PEM block and
    at nothing else: not at the type of the block or its headers, and not at
    what follows the block in the input. *)
Theorem buildCaCertificatePool_reads_first_block_bytes
    (caCert1 caCert2 : bytes) (block1 block2 : pem.Block) :
  (pem_Decode caCert1).1 = Some block1 →
  (pem_Decode caCert2).1 = Some block2 →
  pem.Bytes block1 = pem.Bytes block2 →
  buildCaCertificatePool caCert1 = buildCaCertificatePool caCert2.
Proof.
  unfold buildCaCertificatePool.
  destruct (pem_Decode caCert1) as [b1 rest1].
  destruct (pem_Decode caCert2) as [b2 rest2]. cbn [fst].
  by intros -> -> ->.
Qed.

(** Where an error of [NewTlsConfig] comes from: it is the error of the
    missing PEM block or the wrapped error of the certificate parser, both
    for the CA certificate and only in the self-signed modes, or it is the
    error of the key-pair parser, only in the modes with a client
    certificate.  Mode [ca-tls] and the modes without a case of their own
    never fail. *)
Theorem NewTlsConfig_error_origin (settings : Settings) (err : error) :
  (NewTlsConfig settings).2 = Some err →
  let certificates := Certificates settings in
  (TlsMode settings ∈ ["ss-tls"; "ss-mtls"]
   ∧ (pem_Decode (certification.CACertificate certificates)).1 = None
   ∧ err = errorString "failed to decode PEM block containing CA certificate")
  ∨ (TlsMode settings ∈ ["ss-tls"; "ss-mtls"]
     ∧ ∃ block parseErr,
         (pem_Decode (certification.CACertificate certificates)).1 = Some block
         ∧ x509_ParseCertificate (pem.Bytes block) = inr parseErr
         ∧ err = wrapError ("error parsing certificate: " +:+ Error parseErr)
                   parseErr)
  ∨ (TlsMode settings ∈ ["ss-mtls"; "ca-mtls"]
     ∧ ∃ certificate,
         tls_X509KeyPair (certification.ClientCertificate certificates)
                         (certification.ClientKey certificates)
           = (certificate, Some err)).
Proof.
  destruct settings as [mode certificates]. cbn [TlsMode Certificates].
  cbv zeta.
  assert (Hpool : ∀ e,
    (buildCaCertificatePool (certification.GetCACertificate certificates)).2
      = Some e →
    ((pem_Decode (certification.CACertificate certificates)).1 = None
     ∧ e = errorString "failed to decode PEM block containing CA certificate")
    ∨ ∃ block parseErr,
        (pem_Decode (certification.CACertificate certificates)).1 = Some block
        ∧ x509_ParseCertificate (pem.Bytes block) = inr parseErr
        ∧ e = wrapError ("error parsing certificate: " +:+ Error parseErr)
                parseErr).
  { intros e. unfold buildCaCertificatePool, certification.GetCACertificate.
    destruct (pem_Decode _) as [[block|] rest]; cbn [fst].
    - destruct (x509_ParseCertificate (pem.Bytes block)) as [cert|parseErr] eqn:Hp;
        [done|]. intros [= <-]. right. by exists block, parseErr.
    - intros [= <-]. by left. }
  destruct (NewTlsConfig_branch mode certificates)
    as [[-> ->]|[[-> ->]|[[-> ->]|[[-> ->]|[Hmode ->]]]]]; [| | done | | done].
  - unfold buildSelfSignedTlsConfig.
    destruct (buildCaCertificatePool _) as [pool [e|]] eqn:Hb; [|done].
    intros [= <-]. destruct (Hpool e eq_refl) as [[? ?]|?].
    + left. split; [by repeat constructor|done].
    + right; left. split; [by repeat constructor|done].
  - unfold buildSelfSignedMtlsConfig, buildCertificates.
    cbn [certification.GetClientCertificate].
    destruct (buildCaCertificatePool _) as [pool [e|]] eqn:Hb.
    + intros [= <-]. destruct (Hpool e eq_refl) as [[? ?]|?].
      * left. split; [by repeat constructor|done].
      * right; left. split; [by repeat constructor|done].
    + destruct (tls_X509KeyPair _ _) as [certificate [e|]] eqn:Hpair; [|done].
      intros [= <-]. right; right. split; [by repeat constructor|eauto].
  - unfold buildCaTlsConfig, buildCertificates.
    cbn [certification.GetClientCertificate].
    destruct (tls_X509KeyPair _ _) as [certificate [e|]] eqn:Hpair; [|done].
    intros [= <-]. right; right. split; [by repeat constructor|eauto].
Qed.

End FactoryByMode.

Section FactoryByModeOnSample.
Import authentication observe.
Existing Instance sample.crypto.

Lemma NewTlsConfig_reads_what_the_mode_needs_witness :
  certification.CACertificate (sample.bundle sample.caPEM [] [])
    = certification.CACertificate
        (sample.bundle sample.caPEM sample.otherKeyPEM sample.clientPEM)
  ∧ NewTlsConfig (H := sample.crypto)
      {| TlsMode := "ss-tls";
         Certificates := sample.bundle sample.caPEM [] [] |}
    = NewTlsConfig (H := sample.crypto)
        {| TlsMode := "ss-tls";
           Certificates :=
             sample.bundle sample.caPEM sample.otherKeyPEM sample.clientPEM |}.
Proof.
  split; [reflexivity|].
  exact (proj1 (proj2 (NewTlsConfig_reads_what_the_mode_needs
                         (H := sample.crypto) "ss-tls"
                         (sample.bundle sample.caPEM [] [])
                         (sample.bundle sample.caPEM sample.otherKeyPEM
                            sample.clientPEM)))
           eq_refl eq_refl).
Defined.

Lemma NewTlsConfig_self_signed_modes_pin_the_ca_witness :
  (pem_Decode (Crypto := sample.crypto) sample.caPEM).1
    = Some {| pem.Type_ := "CERTIFICATE"; pem.Headers := ∅;
              pem.Bytes := [x30; x01] |}
  ∧ x509_ParseCertificate (Crypto := sample.crypto) [x30; x01]
    = inl [x30; x01]
  ∧ tls_X509KeyPair (Crypto := sample.crypto) sample.clientPEM sample.keyPEM
    = ([[x30; x02]], None)
  ∧ NewTlsConfig (H := sample.crypto)
      {| TlsMode := "ss-mtls";
         Certificates := sample.bundle sample.caPEM sample.keyPEM sample.clientPEM |}
    = (Some {| tls.InsecureSkipVerify := false;
               tls.RootCAs := Some [[x30; x01]];
               tls.Certificates := [[[x30; x02]]] |},
       None).
Proof.
  split; [reflexivity|]. split; [reflexivity|]. split; [reflexivity|].
  exact (proj2 (NewTlsConfig_self_signed_modes_pin_the_ca
                  (H := sample.crypto)
                  (sample.bundle sample.caPEM sample.keyPEM sample.clientPEM)
                  _ _ eq_refl eq_refl)
           _ eq_refl).
Defined.

Lemma NewTlsConfig_ca_mtls_key_pair_rejected_witness :
  tls_X509KeyPair (Crypto := sample.crypto) sample.clientPEM sample.otherKeyPEM
    = ([], Some (errorString "tls: private key does not match public key"))
  ∧ NewTlsConfig (H := sample.crypto)
      {| TlsMode := "ca-mtls";
         Certificates := sample.bundle [] sample.otherKeyPEM sample.clientPEM |}
    = (None, Some (errorString "tls: private key does not match public key")).
Proof.
  split; [reflexivity|].
  exact (NewTlsConfig_ca_mtls_key_pair_rejected (H := sample.crypto)
           (sample.bundle [] sample.otherKeyPEM sample.clientPEM) _ _ eq_refl).
Defined.

Lemma buildCaCertificatePool_reads_first_block_bytes_witness :
  (pem_Decode (Crypto := sampleFramed.crypto) sampleFramed.certificateBlock).1
    = Some {| pem.Type_ := "CERTIFICATE"; pem.Headers := ∅;
              pem.Bytes := [x30; x01] |}
  ∧ pem_Decode (Crypto := sampleFramed.crypto) sampleFramed.keyBlockAndMore
    = (Some {| pem.Type_ := "PRIVATE KEY"; pem.Headers := ∅;
               pem.Bytes := [x30; x01] |},
       [xff; xfe])
  ∧ buildCaCertificatePool (H := sampleFramed.crypto)
      sampleFramed.certificateBlock
    = buildCaCertificatePool (H := sampleFramed.crypto)
        sampleFramed.keyBlockAndMore
  ∧ buildCaCertificatePool (H := sampleFramed.crypto)
      sampleFramed.keyBlockAndMore
    = (Some [[x30; x01]], None).
Proof.
  split; [reflexivity|]. split; [reflexivity|]. split; [|reflexivity].
  exact (buildCaCertificatePool_reads_first_block_bytes
           (H := sampleFramed.crypto)
           sampleFramed.certificateBlock sampleFramed.keyBlockAndMore
           _ _ eq_refl eq_refl eq_refl).
Defined.

Lemma NewTlsConfig_error_origin_witness :
  (NewTlsConfig (H := sample.crypto)
     {| TlsMode := "ss-tls";
        Certificates := sample.bundle [x2d; x31] [] [] |}).2
    = Some (wrapError "error parsing certificate: x509: malformed certificate"
              (errorString "x509: malformed certificate"))
  ∧ ∃ block parseErr,
      (pem_Decode (Crypto := sample.crypto) [x2d; x31]).1 = Some block
      ∧ x509_ParseCertificate (Crypto := sample.crypto) (pem.Bytes block)
        = inr parseErr
      ∧ wrapError "error parsing certificate: x509: malformed certificate"
          (errorString "x509: malformed certificate")
        = wrapError ("error parsing certificate: " +:+ Error parseErr) parseErr.
Proof.
  split; [reflexivity|].
  destruct (NewTlsConfig_error_origin (H := sample.crypto)
              {| TlsMode := "ss-tls";
                 Certificates := sample.bundle [x2d; x31] [] [] |}
              _ eq_refl)
    as [(_ & Hnone & _)|[(_ & Hparse)|(Hmode & _)]].
  - discriminate Hnone.
  - exact Hparse.
  - exfalso. unhandled Hmode.
Defined.

End FactoryByModeOnSample.

(* ===================================================================== *)
(** * What the update handler reads of a ConfigMap                        *)
(* ===================================================================== *)

Section HandlerReads.
Import configuration.

(** The update handler reads the value under [nginx-hosts] and nothing
    else of the ConfigMap: not its name, not its namespace, not its other
    keys.  Two ConfigMaps that agree on the key (both without it, or both
    with the same value) have the same effect; so every ConfigMap that the
    informer delivers and that has the key replaces the host list. *)
Theorem handleUpdateEvent_reads_hosts_key_only
    (configMap1 configMap2 : corev1.ConfigMap) (old1 old2 : Object)
    (w : World) :
  corev1.Data configMap1 !! "nginx-hosts"
    = corev1.Data configMap2 !! "nginx-hosts" →
  handleUpdateEvent (ConfigMapPointer (Some configMap1)) old1 w
    = handleUpdateEvent (ConfigMapPointer (Some configMap2)) old2 w
  ∧ handleAddEvent (ConfigMapPointer (Some configMap1)) w
    = handleAddEvent (ConfigMapPointer (Some configMap2)) w.
Proof.
  intros Hkey. unfold handleAddEvent, bind, Debug, emit.
  rewrite !handleUpdateEvent_cases. cbv zeta. by rewrite Hkey.
Qed.

Lemma handleUpdateEvent_reads_hosts_key_only_witness :
  corev1.Data (sample.hostsConfigMap "10.0.0.1,10.0.0.2") !! "nginx-hosts"
    = corev1.Data sample.strayConfigMap !! "nginx-hosts"
  ∧ handleAddEvent
      (ConfigMapPointer (Some (sample.hostsConfigMap "10.0.0.1,10.0.0.2")))
      (initial None None)
    = handleAddEvent (ConfigMapPointer (Some sample.strayConfigMap))
        (initial None None)
  ∧ hostsOf
      (handleAddEvent (ConfigMapPointer (Some sample.strayConfigMap))
         (initial None None))
    = ["10.0.0.1"; "10.0.0.2"].
Proof.
  assert (Hkey :
    corev1.Data (sample.hostsConfigMap "10.0.0.1,10.0.0.2") !! "nginx-hosts"
      = corev1.Data sample.strayConfigMap !! "nginx-hosts")
    by (vm_compute; reflexivity).
  split; [exact Hkey|]. split; [|vm_compute; reflexivity].
  exact (proj2 (handleUpdateEvent_reads_hosts_key_only
                  (sample.hostsConfigMap "10.0.0.1,10.0.0.2")
                  sample.strayConfigMap NilObject NilObject
                  (initial None None) Hkey)).
Defined.

End HandlerReads.
